(** * AP Navigator: search filter, route generator and sidebar state

    A shallow embedding of the computational parts of the AP Navigator
    front end (components [LocationSearch], [AppSidebar], the page [Index]
    and the route layer of [APMap]) together with the properties stated
    about them.

    Conventions of the embedding.

    - Where the code uses [Math.sin], [Math.cos], [Math.atan2] and
      [Math.PI], whose results JavaScript leaves to the implementation, a
      [number] is read as a real number ([R]) and these are the
      mathematical functions and constant.  Statements made on this
      reading either do not depend on rounding or leave room for it (a
      tolerance, bounds that are not tight).
    - The duration label is computed with division, subtraction,
      multiplication, [Math.floor] and [Math.round] only; module
      [Binary64] embeds it a second time on IEEE doubles, bit for bit, and
      the statements that depend on rounding are made there.
    - Integer-valued numbers produced by [Math.floor] and [Math.round] are
      kept in [Z] and injected back with [IZR] where the code computes with
      them.
    - A JavaScript string is a [string] whose characters are read as the
      code units U+0000 .. U+00FF.
    - React state is an explicit record; an event handler is a function from
      the state before the event to the state after it. *)

From Stdlib Require Import Reals Lra Lia ZArith Bool List.
From Stdlib Require Import Ascii String DecimalString.
From Stdlib Require Floats.
Import ListNotations.

Open Scope R_scope.

(* ================================================================== *)
(** * Strings *)

Module JsString.

Open Scope string_scope.

(** [String.prototype.toLowerCase] on one code unit below U+0100: the
    letters A-Z and the Latin-1 capitals U+00C0 .. U+00DE (U+00D7, the
    multiplication sign, excepted) move up by 32; every other code unit
    is its own lower case. *)
Definition lowerCodeUnit (c : ascii) : ascii :=
  let n := N_of_ascii c in
  if (((65 <=? n) && (n <=? 90)) ||
      ((192 <=? n) && (n <=? 222) && negb (n =? 215)))%N
  then ascii_of_N (n + 32)
  else c.

Fixpoint toLowerCase (s : string) : string :=
  match s with
  | EmptyString => EmptyString
  | String c s' => String (lowerCodeUnit c) (toLowerCase s')
  end.

(** [q] is an initial segment of [s]. *)
Fixpoint startsWith (s q : string) {struct q} : bool :=
  match q, s with
  | EmptyString, _ => true
  | String _ _, EmptyString => false
  | String a q', String b s' => Ascii.eqb a b && startsWith s' q'
  end.

(** [String.prototype.includes]: scan [s] from the left for a position
    at which [q] starts. *)
Fixpoint includes (s q : string) : bool :=
  startsWith s q ||
  match s with
  | EmptyString => false
  | String _ s' => includes s' q
  end.

(** The mathematical reading of "contains as a substring". *)
Definition Contains (s q : string) : Prop :=
  exists p t : string, s = p ++ q ++ t.

(** Decimal rendering of an integer-valued number ([Number::toString] for
    integers of magnitude below 10^21). *)
Definition ofInt (z : Z) : string :=
  NilZero.string_of_int (Z.to_int z).

End JsString.

(* ================================================================== *)
(** * Locations and the registry *)

Record Location : Type := mkLocation {
  name : string;
  lat : R;
  lng : R
}.

(** The static table of [LocationSearch]. *)
Definition popularLocations : list Location := [
  mkLocation "Visakhapatnam" 17.6868 83.2185;
  mkLocation "Vijayawada" 16.5062 80.6480;
  mkLocation "Guntur" 16.3067 80.4365;
  mkLocation "Tirupati" 13.6288 79.4192;
  mkLocation "Rajahmundry" 17.0005 81.8040;
  mkLocation "Kakinada" 16.9891 82.2475;
  mkLocation "Nellore" 14.4426 79.9865;
  mkLocation "Kurnool" 15.8281 78.0373;
  mkLocation "Anantapur" 14.6819 77.6006;
  mkLocation "Kadapa" 14.4674 78.8241;
  mkLocation "Amaravati" 16.5131 80.5167;
  mkLocation "Eluru" 16.7107 81.0952;
  mkLocation "Ongole" 15.5057 80.0499;
  mkLocation "Srikakulam" 18.2949 83.8935;
  mkLocation "Chittoor" 13.2172 79.1003
].

(** The first two entries of the table, the places of the worked example. *)
Definition visakhapatnam : Location :=
  mkLocation "Visakhapatnam" 17.6868 83.2185.

Definition vijayawada : Location :=
  mkLocation "Vijayawada" 16.5062 80.6480.

(** Order-preserving sub-list: [Subsequence l1 l2] when [l1] is [l2] with
    some entries left out. *)
Inductive Subsequence {A : Type} : list A -> list A -> Prop :=
| Subsequence_nil : Subsequence [] []
| Subsequence_skip x l1 l2 : Subsequence l1 l2 -> Subsequence l1 (x :: l2)
| Subsequence_keep x l1 l2 : Subsequence l1 l2 -> Subsequence (x :: l1) (x :: l2).

(* ================================================================== *)
(** * The [LocationSearch] component *)

Module LocationSearch.

Import JsString.
Open Scope string_scope.

(** The predicate of the filter call: the lowered name includes the
    lowered query. *)
Definition matches (query : string) (loc : Location) : bool :=
  includes (toLowerCase (name loc)) (toLowerCase query).

Definition filteredLocations (query : string) : list Location :=
  filter (matches query) popularLocations.

(** Local state of one search box. *)
Record State : Type := mkState {
  query : string;
  isOpen : bool;
  isLoading : bool
}.

(** [useState(value?.name || '')], [useState(false)], [useState(false)];
    an empty name is falsy and yields the empty string all the same. *)
Definition init (value : option Location) : State :=
  mkState (match value with Some l => name l | None => "" end) false false.

(** A handler returns the next local state and, when it calls the
    [onChange] prop, the argument it passes. *)
Definition Outcome : Type := State * option (option Location).

Definition handleSelect (st : State) (location : Location) : Outcome :=
  (mkState (name location) false (isLoading st), Some (Some location)).

Definition handleInputChange (st : State) (newQuery : string) : Outcome :=
  (mkState newQuery (0 <? String.length newQuery)%nat (isLoading st),
   if (String.length newQuery =? 0)%nat then Some None else None).

Definition handleClear (st : State) : Outcome :=
  (mkState "" false (isLoading st), Some None).

(** [onFocus={() => query.length > 0 && setIsOpen(true)}]. *)
Definition handleFocus (st : State) : Outcome :=
  (if (0 <? String.length (query st))%nat
   then mkState (query st) true (isLoading st)
   else st, None).

(** The timer armed by [onBlur] fires: [setIsOpen(false)]. *)
Definition handleBlurTimeout (st : State) : Outcome :=
  (mkState (query st) false (isLoading st), None).

(** The suggestion list is rendered. *)
Definition suggestionsShown (st : State) : bool :=
  isOpen st && (0 <? List.length (filteredLocations (query st)))%nat.

(** The "No locations found" panel is rendered. *)
Definition noResultsShown (st : State) : bool :=
  isOpen st && (List.length (filteredLocations (query st)) =? 0)%nat
  && (0 <? String.length (query st))%nat.

Inductive Event : Type :=
| Select (location : Location)
| InputChange (newQuery : string)
| Clear
| Focus
| BlurTimeout.

Definition handle (st : State) (e : Event) : Outcome :=
  match e with
  | Select l => handleSelect st l
  | InputChange q => handleInputChange st q
  | Clear => handleClear st
  | Focus => handleFocus st
  | BlurTimeout => handleBlurTimeout st
  end.

(** Suggestions can only be clicked while they are shown, and only
    entries of the current filter result are offered. *)
Definition enabled (st : State) (e : Event) : Prop :=
  match e with
  | Select l => suggestionsShown st = true /\ In l (filteredLocations (query st))
  | _ => True
  end.

(** States a search box can be in after any sequence of events. *)
Inductive reachable : State -> Prop :=
| reachable_init value : reachable (init value)
| reachable_step st e :
    reachable st -> enabled st e -> reachable (fst (handle st e)).

(** A freshly mounted, empty box after the user has typed a letter and
    deleted it again. *)
Definition typedAndErased : State :=
  fst (handle (fst (handle (init None) (InputChange "v"))) (InputChange "")).

End LocationSearch.

(* ================================================================== *)
(** * Numbers *)

Module Math.

(** [Math.floor]: the greatest integer not above [x]. *)
Definition floor (x : R) : Z := Int_part x.

(** [Math.round]: the nearest integer, a tie going to the larger one. *)
Definition round (x : R) : Z := Int_part (x + / 2).

(** [Math.sqrt] on non-negative numbers; below 0 the library's [sqrt] is
    0 where JavaScript has NaN, so the model says nothing there.  On the
    real reading the route code takes roots of numbers in [0, 1] whenever
    both latitudes lie in [-90, 90]; in doubles the sum under the second
    root can exceed 1 by a rounding error for places that are nearly
    antipodal, and the code's result is then NaN. *)
Definition sqrt (x : R) : R := R_sqrt.sqrt x.

(** [Math.atan2 y x]: the angle of the point [(x, y)], in (-PI, PI]. *)
Definition atan2 (y x : R) : R :=
  if Rlt_dec 0 x then atan (y / x)
  else if Rlt_dec x 0 then
    if Rle_dec 0 y then atan (y / x) + PI else atan (y / x) - PI
  else if Rlt_dec 0 y then PI / 2
  else if Rlt_dec y 0 then - (PI / 2)
  else 0.

(** [Number.prototype.toFixed(1)] for magnitudes below 10^21: the sign,
    then the integer [n] with [n / 10] nearest to the magnitude (the larger
    [n] on a tie), printed with one digit after the point. *)
Definition toFixed1 (x : R) : string :=
  let digits (y : R) : string :=
    let n := Int_part (y * 10 + / 2) in
    (JsString.ofInt (n / 10) ++ "." ++ JsString.ofInt (n mod 10))%string in
  if Rlt_dec x 0 then ("-" ++ digits (- x))%string else digits x.

End Math.

(* ================================================================== *)
(** * The route computation of [calculateRoute] *)

Module Route.

Definition steps : nat := 20.

(** Body of the loop at index [i]: the point pushed on [points]. *)
Definition routePoint (source destination : Location) (i : nat) : R * R :=
  let t := INR i / INR steps in
  let curve := sin (t * PI) * 0.2 in
  let lat_i := lat source + (lat destination - lat source) * t + curve in
  let lng_i := lng source + (lng destination - lng source) * t in
  (lat_i, lng_i).

(** [for (let i = ...; i <= steps; i++) points.push(...)], with [n] the
    number of iterations still to run. *)
Fixpoint routeLoop (source destination : Location) (n i : nat)
    (points : list (R * R)) : list (R * R) :=
  match n with
  | O => points
  | S n' =>
      routeLoop source destination n' (S i)
        (points ++ [routePoint source destination i])
  end.

Definition routePoints (source destination : Location) : list (R * R) :=
  routeLoop source destination (S steps) 0 [].

(** The sum under the square roots of the Haversine formula. *)
Definition haversine_a (source destination : Location) : R :=
  let dLat := (lat destination - lat source) * PI / 180 in
  let dLon := (lng destination - lng source) * PI / 180 in
  sin (dLat / 2) * sin (dLat / 2) +
  cos (lat source * PI / 180) * cos (lat destination * PI / 180) *
  sin (dLon / 2) * sin (dLon / 2).

Definition distance (source destination : Location) : R :=
  let R := 6371 in
  let a := haversine_a source destination in
  let c := 2 * Math.atan2 (Math.sqrt a) (Math.sqrt (1 - a)) in
  R * c.

Definition durationHours (distance : R) : R := distance / 60.

Definition hours (distance : R) : Z := Math.floor (durationHours distance).

Definition minutes (distance : R) : Z :=
  Math.round ((durationHours distance - IZR (hours distance)) * 60).

(** The [duration] string of the route summary. *)
Definition durationLabel (distance : R) : string :=
  let hours := hours distance in
  let minutes := minutes distance in
  if (hours >? 0)%Z
  then (JsString.ofInt hours ++ "h " ++ JsString.ofInt minutes ++ "m")%string
  else (JsString.ofInt minutes ++ " min")%string.

(** The [distance] string of the route summary. *)
Definition distanceLabel (distance : R) : string :=
  (Math.toFixed1 distance ++ " km")%string.

(** Linear interpolation, as the specification names it. *)
Definition lerp (a b t : R) : R := a + (b - a) * t.

End Route.

(* ================================================================== *)
(** * The duration label on IEEE doubles *)

Module Binary64.

Import PrimFloat SpecFloat FloatOps.

(** A finite double as [n * 2 ^ e] with integers [n] and [e]; nothing for
    NaN and the infinities. *)
Definition scaled (x : float) : option (Z * Z) :=
  match Prim2SF x with
  | S754_zero _ => Some (0%Z, 0%Z)
  | S754_finite s m e => Some (if s then Z.neg m else Z.pos m, e)
  | _ => None
  end.

(** The greatest integer not above [x]. *)
Definition floorZ (x : float) : option Z :=
  match scaled x with
  | Some (n, e) =>
      Some (if (0 <=? e)%Z then (n * 2 ^ e)%Z else Z.shiftr n (- e))
  | None => None
  end.

(** The integer nearest to [x], the larger one on a tie. *)
Definition roundZ (x : float) : option Z :=
  match scaled x with
  | Some (n, e) =>
      Some (if (0 <=? e)%Z then (n * 2 ^ e)%Z
            else Z.shiftr (n + 2 ^ (- e - 1)) (- e))
  | None => None
  end.

(** The double of an integer of magnitude below 2^53. *)
Definition ofZ (z : Z) : float :=
  if (z <? 0)%Z then (- of_uint63 (Uint63.of_Z (- z)))%float
  else of_uint63 (Uint63.of_Z z).

(** An integer-valued result as a double: from 2^53 on every double is an
    integer and the operation returns its argument, as it does for NaN
    and the infinities.  A zero result is returned as +0; the sign of a
    zero does not show in the label. *)
Definition integral (x : float) (v : option Z) : float :=
  match v with
  | Some z => if (Z.abs z <? 2 ^ 53)%Z then ofZ z else x
  | None => x
  end.

(** [Math.floor] and [Math.round]. *)
Definition floor (x : float) : float := integral x (floorZ x).

Definition round (x : float) : float := integral x (roundZ x).

(** [Number::toString] of an integer-valued double of magnitude below
    10^21; the printed forms of larger numbers, of NaN and of the
    infinities are not modelled. *)
Definition toString (v : float) : option string :=
  match floorZ v with
  | Some z => if (Z.abs z <? 10 ^ 21)%Z then Some (JsString.ofInt z) else None
  | None => None
  end.

(** The [duration] string of the route summary, on doubles. *)
Definition durationLabel (distance : float) : option string :=
  let durationHours := (distance / 60)%float in
  let hours := floor durationHours in
  let minutes := round ((durationHours - hours) * 60)%float in
  match toString hours, toString minutes with
  | Some h, Some m =>
      Some (if (0 <? hours)%float
            then (h ++ "h " ++ m ++ "m")%string
            else (m ++ " min")%string)
  | _, _ => None
  end.





End Binary64.

(* ================================================================== *)
(** * Coordinate ranges *)

(** Latitude and longitude within the range of the data model. *)
Definition inRange (l : Location) : Prop :=
  -90 <= lat l <= 90 /\ -180 <= lng l <= 180.

(** The box of whole degrees around the places of the registry. *)
Definition inRegion (l : Location) : Prop :=
  13 <= lat l <= 19 /\ 77 <= lng l <= 84.

(** Room left for the rounding of doubles, in degrees and in minutes. *)
Definition tolerance : R := 1 / 1000000000.

(* ================================================================== *)
(** * Page and sidebar state *)

Module App.

Record RouteInfo : Type := mkRouteInfo {
  distance : string;
  duration : string
}.

(** State of [Index] ([source], [destination], [route],
    [selectedLocation]), of [AppSidebar] ([isCollapsed], [isCalculating],
    [routeInfo]) and of its two [LocationSearch] children. *)
Record State : Type := mkState {
  source : option Location;
  destination : option Location;
  route : option (list (R * R));
  selectedLocation : option (R * R);
  isCollapsed : bool;
  isCalculating : bool;
  routeInfo : option RouteInfo;
  startSearch : LocationSearch.State;
  destinationSearch : LocationSearch.State
}.

Definition init : State :=
  mkState None None None None false false None
    (LocationSearch.init None) (LocationSearch.init None).

Definition setSource (v : option Location) (st : State) : State :=
  mkState v (destination st) (route st) (selectedLocation st)
    (isCollapsed st) (isCalculating st) (routeInfo st)
    (startSearch st) (destinationSearch st).

Definition setDestination (v : option Location) (st : State) : State :=
  mkState (source st) v (route st) (selectedLocation st)
    (isCollapsed st) (isCalculating st) (routeInfo st)
    (startSearch st) (destinationSearch st).

Definition setRoute (v : option (list (R * R))) (st : State) : State :=
  mkState (source st) (destination st) v (selectedLocation st)
    (isCollapsed st) (isCalculating st) (routeInfo st)
    (startSearch st) (destinationSearch st).

Definition setSelectedLocation (v : option (R * R)) (st : State) : State :=
  mkState (source st) (destination st) (route st) v
    (isCollapsed st) (isCalculating st) (routeInfo st)
    (startSearch st) (destinationSearch st).

Definition setIsCollapsed (v : bool) (st : State) : State :=
  mkState (source st) (destination st) (route st) (selectedLocation st)
    v (isCalculating st) (routeInfo st)
    (startSearch st) (destinationSearch st).

Definition setIsCalculating (v : bool) (st : State) : State :=
  mkState (source st) (destination st) (route st) (selectedLocation st)
    (isCollapsed st) v (routeInfo st)
    (startSearch st) (destinationSearch st).

Definition setRouteInfo (v : option RouteInfo) (st : State) : State :=
  mkState (source st) (destination st) (route st) (selectedLocation st)
    (isCollapsed st) (isCalculating st) v
    (startSearch st) (destinationSearch st).

Definition setStartSearch (v : LocationSearch.State) (st : State) : State :=
  mkState (source st) (destination st) (route st) (selectedLocation st)
    (isCollapsed st) (isCalculating st) (routeInfo st)
    v (destinationSearch st).

Definition setDestinationSearch (v : LocationSearch.State) (st : State)
    : State :=
  mkState (source st) (destination st) (route st) (selectedLocation st)
    (isCollapsed st) (isCalculating st) (routeInfo st)
    (startSearch st) v.

(** [Index.handleRouteCalculate] and [Index.handleMapClick]. *)
Definition handleRouteCalculate (newRoute : list (R * R)) (st : State)
    : State :=
  setRoute (Some newRoute) st.

Definition handleMapClick (lat lng : R) (st : State) : State :=
  setSelectedLocation (Some (lat, lng)) st.

(** [calculateRoute] up to its [await]: the guard, then
    [setIsCalculating(true)].  The second component is the pair the
    suspended call has captured, if the call goes on at all. *)
Definition calculateRoute_begin (st : State)
    : State * option (Location * Location) :=
  match source st, destination st with
  | Some s, Some d => (setIsCalculating true st, Some (s, d))
  | _, _ => (st, None)
  end.

(** [calculateRoute] after the [await], run on the state of that moment
    with the captured [source] and [destination]. *)
Definition calculateRoute_resume (s d : Location) (st : State) : State :=
  let points := Route.routePoints s d in
  let distance := Route.distance s d in
  let st1 :=
    setRouteInfo (Some (mkRouteInfo (Route.distanceLabel distance)
                                    (Route.durationLabel distance))) st in
  let st2 := handleRouteCalculate points st1 in
  setIsCalculating false st2.

(** A whole call with no other event during the delay. *)
Definition calculateRoute (st : State) : State :=
  match calculateRoute_begin st with
  | (st', Some (s, d)) => calculateRoute_resume s d st'
  | (st', None) => st'
  end.

Definition swapLocations (st : State) : State :=
  let tempSource := source st in
  setRouteInfo None (setDestination tempSource (setSource (destination st) st)).

Definition isNull {A : Type} (v : option A) : bool :=
  match v with Some _ => false | None => true end.

(** [disabled] of the "Calculate Route" button and of the swap button. *)
Definition calculateDisabled (st : State) : bool :=
  isNull (source st) || isNull (destination st) || isCalculating st.

Definition swapDisabled (st : State) : bool :=
  isNull (source st) && isNull (destination st).

(** An event of a search box reaches the page through [onChange]. *)
Definition startSearchEvent (e : LocationSearch.Event) (st : State) : State :=
  let (ls, out) := LocationSearch.handle (startSearch st) e in
  let st' := setStartSearch ls st in
  match out with Some v => setSource v st' | None => st' end.

Definition destinationSearchEvent (e : LocationSearch.Event) (st : State)
    : State :=
  let (ls, out) := LocationSearch.handle (destinationSearch st) e in
  let st' := setDestinationSearch ls st in
  match out with Some v => setDestination v st' | None => st' end.

(** The polyline [APMap] keeps on the map for a given [route] prop (map
    ready): none for [null] or an empty array. *)
Definition routeLayer (route : option (list (R * R)))
    : option (list (R * R)) :=
  match route with
  | Some r => if (0 <? List.length r)%nat then Some r else None
  | None => None
  end.

(** A state with a destination, no source, and a route and a summary left
    from an earlier calculation. *)
Definition staleState : State :=
  mkState None (Some vijayawada)
    (Some (Route.routePoints visakhapatnam vijayawada)) None false false
    (Some (mkRouteInfo "1.0 km" "1 min"))
    (LocationSearch.init None) (LocationSearch.init (Some vijayawada)).

End App.

(* ================================================================== *)
(** * What the map shows *)

Module MapView.

Inductive Icon : Type := sourceIcon | destinationIcon | selectedIcon.

Record Marker : Type := mkMarker {
  icon : Icon;
  position : R * R
}.

(** The markers [APMap] draws besides the fixed capital markers: one for
    the source, one for the destination, and one for the clicked point
    when neither of the two is set. *)
Definition markers (source destination : option Location)
    (selectedLocation : option (R * R)) : list Marker :=
  (match source with
   | Some s => [mkMarker sourceIcon (lat s, lng s)]
   | None => []
   end) ++
  (match destination with
   | Some d => [mkMarker destinationIcon (lat d, lng d)]
   | None => []
   end) ++
  (match selectedLocation with
   | Some p =>
       if App.isNull source && App.isNull destination
       then [mkMarker selectedIcon p]
       else []
   | None => []
   end).

End MapView.

(* ================================================================== *)
(** * A session: the page, its events and the pending calculation *)

Module Session.

(** The page state together with the calls of [calculateRoute] that are
    suspended at their [await], oldest first, each with the source and
    destination it has captured. *)
Record State : Type := mkState {
  app : App.State;
  pending : list (Location * Location)
}.

Definition init : State := mkState App.init [].

Inductive Event : Type :=
| CalculateClick
| TimerFires
| SwapClick
| StartSearch (e : LocationSearch.Event)
| DestinationSearch (e : LocationSearch.Event)
| MapClick (lat lng : R)
| ToggleSidebar.

(** A disabled button takes no click, a timer fires only for a suspended
    call, and a suggestion is clicked only while it is listed. *)
Definition enabled (st : State) (e : Event) : Prop :=
  match e with
  | CalculateClick => App.calculateDisabled (app st) = false
  | TimerFires => pending st <> []
  | SwapClick => App.swapDisabled (app st) = false
  | StartSearch e' => LocationSearch.enabled (App.startSearch (app st)) e'
  | DestinationSearch e' =>
      LocationSearch.enabled (App.destinationSearch (app st)) e'
  | MapClick _ _ => True
  | ToggleSidebar => True
  end.

Definition step (st : State) (e : Event) : State :=
  match e with
  | CalculateClick =>
      let (a, captured) := App.calculateRoute_begin (app st) in
      mkState a (pending st ++
                 match captured with Some p => [p] | None => [] end)
  | TimerFires =>
      match pending st with
      | (s, d) :: rest => mkState (App.calculateRoute_resume s d (app st)) rest
      | [] => st
      end
  | SwapClick => mkState (App.swapLocations (app st)) (pending st)
  | StartSearch e' => mkState (App.startSearchEvent e' (app st)) (pending st)
  | DestinationSearch e' =>
      mkState (App.destinationSearchEvent e' (app st)) (pending st)
  | MapClick lat lng => mkState (App.handleMapClick lat lng (app st)) (pending st)
  | ToggleSidebar =>
      mkState (App.setIsCollapsed (negb (App.isCollapsed (app st))) (app st))
              (pending st)
  end.

Inductive reachable : State -> Prop :=
| reachable_init : reachable init
| reachable_step st e : reachable st -> enabled st e -> reachable (step st e).

(** The summary [calculateRoute] stores for a pair of places. *)
Definition summary (s d : Location) : App.RouteInfo :=
  App.mkRouteInfo (Route.distanceLabel (Route.distance s d))
                  (Route.durationLabel (Route.distance s d)).

(** Both places chosen and nothing in flight. *)
Definition ready (s d : Location) : State :=
  mkState (App.mkState (Some s) (Some d) None None false false None
             (LocationSearch.init (Some s)) (LocationSearch.init (Some d)))
          [].

(** The state after a sequence of events. *)
Definition run (st : State) (es : list Event) : State := fold_left step es st.

(** Choose Visakhapatnam, choose Vijayawada, calculate, wait. *)
Definition demo : list Event := [
  StartSearch (LocationSearch.InputChange "vis");
  StartSearch (LocationSearch.Select visakhapatnam);
  DestinationSearch (LocationSearch.InputChange "vij");
  DestinationSearch (LocationSearch.Select vijayawada);
  CalculateClick;
  TimerFires
].

End Session.

(* ================================================================== *)
(** * Facts about strings and sub-lists *)

Section StringFacts.

Import JsString.
Open Scope string_scope.

Lemma startsWith_spec (s q : string) :
  startsWith s q = true <-> exists t, s = q ++ t.
Proof.
  revert s; induction q as [|a q IH]; intros s; simpl.
  - split; [intros _; now exists s | reflexivity].
  - destruct s as [|b s].
    + split; [discriminate | intros [t Ht]; discriminate].
    + rewrite andb_true_iff, Ascii.eqb_eq, IH. split.
      * intros [-> [t ->]]. now exists t.
      * intros [t Ht]. injection Ht as -> ->. split; [reflexivity | now exists t].
Qed.

Lemma includes_spec (s q : string) :
  includes s q = true <-> Contains s q.
Proof.
  unfold Contains. induction s as [|b s IH].
  - simpl. rewrite orb_false_r, startsWith_spec. split.
    + intros [t Ht]. now exists "", t.
    + intros [p [t Ht]]. destruct p; simpl in Ht.
      * now exists t.
      * discriminate.
  - cbn [includes]. rewrite orb_true_iff, startsWith_spec, IH. split.
    + intros [[t Ht] | [p [t Ht]]].
      * now exists "", t.
      * exists (String b p), t. simpl. now rewrite Ht.
    + intros [p [t Ht]]. destruct p as [|c p]; simpl in Ht.
      * left. now exists t.
      * right. injection Ht as _ Ht. now exists p, t.
Qed.

Lemma includes_empty (s : string) : includes s "" = true.
Proof. destruct s; reflexivity. Qed.

Lemma length_0_empty (s : string) :
  (0 <? String.length s)%nat = false <-> s = "".
Proof.
  destruct s; simpl; split; try reflexivity; discriminate.
Qed.

End StringFacts.

Lemma filter_Subsequence {A : Type} (f : A -> bool) (l : list A) :
  Subsequence (filter f l) l.
Proof.
  induction l as [|x l IH]; simpl.
  - constructor.
  - destruct (f x); now constructor.
Qed.

Lemma Subsequence_refl {A : Type} (l : list A) : Subsequence l l.
Proof. induction l; now constructor. Qed.

Lemma Subsequence_In {A : Type} (l1 l2 : list A) :
  Subsequence l1 l2 -> forall x, In x l1 -> In x l2.
Proof.
  induction 1 as [|y l1 l2 _ IH|y l1 l2 _ IH]; intros x Hx; simpl in *.
  - exact Hx.
  - right. now apply IH.
  - destruct Hx as [->|Hx]; [now left | right; now apply IH].
Qed.

(** Among the order-preserving sub-lists of a duplicate-free list, the
    filter is the only one with the members the predicate selects. *)
Lemma Subsequence_filter_unique {A : Type} (f : A -> bool) (l r : list A) :
  NoDup r -> Subsequence l r ->
  (forall x, In x l <-> In x r /\ f x = true) ->
  l = filter f r.
Proof.
  intros Hnd Hsub. induction Hsub as [|y l r Hsub IH|y l r Hsub IH]; intros Hmem.
  - reflexivity.
  - inversion Hnd as [|? ? Hy Hnd']; subst. simpl.
    assert (Hfy : f y = false).
    { destruct (f y) eqn:E; [|reflexivity]. exfalso. apply Hy.
      apply (Subsequence_In _ _ Hsub). apply Hmem. split; [now left | exact E]. }
    rewrite Hfy. apply IH; [exact Hnd'|]. intros x. rewrite Hmem. simpl. split.
    + intros [[->|Hx] Hf]; [congruence | now split].
    + intros [Hx Hf]. split; [now right | exact Hf].
  - inversion Hnd as [|? ? Hy Hnd']; subst. simpl.
    assert (Hfy : f y = true) by (apply Hmem; now left).
    rewrite Hfy. f_equal. apply IH; [exact Hnd'|]. intros x. split.
    + intros Hx. assert (Hx' : In x (y :: l)) by now right.
      apply Hmem in Hx'. destruct Hx' as [[->|Hx'] Hf].
      * exfalso. apply Hy. now apply (Subsequence_In _ _ Hsub).
      * now split.
    + intros [Hx Hf]. assert (Hx' : In x (y :: l)).
      { apply Hmem. split; [now right | exact Hf]. }
      destruct Hx' as [->|Hx']; [contradiction | exact Hx'].
Qed.

(* ================================================================== *)
(** * The search filter *)

Section SearchFilter.

Import JsString LocationSearch.
Open Scope string_scope.

Lemma matches_spec (q : string) (loc : Location) :
  matches q loc = true <->
  Contains (toLowerCase (name loc)) (toLowerCase q).
Proof. apply includes_spec. Qed.

Lemma popularLocations_names_NoDup : NoDup (map name popularLocations).
Proof.
  repeat (constructor; [simpl; intuition discriminate|]). constructor.
Qed.

Lemma popularLocations_NoDup : NoDup popularLocations.
Proof.
  apply (NoDup_map_inv name). exact popularLocations_names_NoDup.
Qed.

Lemma popularLocations_length : List.length popularLocations = 15%nat.
Proof. reflexivity. Qed.

(** C2. For every query [q] the search filter returns an order-preserving
    sub-list of the registry whose members are exactly the registry
    entries whose lowered name contains the lowered [q] as a substring. *)
Theorem filteredLocations_exact (q : string) :
  Subsequence (filteredLocations q) popularLocations /\
  (forall loc : Location,
      In loc (filteredLocations q) <->
      In loc popularLocations /\
      Contains (toLowerCase (name loc)) (toLowerCase q)).
Proof.
  split.
  - apply filter_Subsequence.
  - intros loc. unfold filteredLocations.
    rewrite filter_In, matches_spec. reflexivity.
Qed.

(** The two properties of C2 determine the result: no other list of
    registry entries in registry order has these members. *)
Lemma filteredLocations_unique (q : string) (l : list Location) :
  Subsequence l popularLocations ->
  (forall loc : Location,
      In loc l <->
      In loc popularLocations /\
      Contains (toLowerCase (name loc)) (toLowerCase q)) ->
  l = filteredLocations q.
Proof.
  intros Hsub Hmem. apply Subsequence_filter_unique.
  - exact popularLocations_NoDup.
  - exact Hsub.
  - intros x. rewrite Hmem, matches_spec. reflexivity.
Qed.

Example filteredLocations_ka :
  map name (filteredLocations "KA") = ["Kakinada"; "Kadapa"; "Srikakulam"].
Proof. reflexivity. Qed.

Example filteredLocations_none : filteredLocations "xyz" = [].
Proof. reflexivity. Qed.

Lemma filter_matches_empty (l : list Location) : filter (matches "") l = l.
Proof.
  induction l as [|x l IH]; simpl.
  - reflexivity.
  - unfold matches at 1. simpl toLowerCase at 2. rewrite includes_empty.
    now rewrite IH.
Qed.

(** While a box is open its query is not empty. *)
Lemma reachable_open_nonempty (st : State) :
  reachable st -> isOpen st = true -> query st <> "".
Proof.
  induction 1 as [value|st e Hr IH He]; simpl.
  - discriminate.
  - destruct e as [l|q| | |]; simpl; try discriminate.
    + intros Hq ->. discriminate.
    + destruct (0 <? String.length (query st))%nat eqn:E; simpl.
      * intros _ Hq. rewrite Hq in E. discriminate.
      * exact IH.
Qed.

(** C9. On the empty query the filter is the identity on the registry;
    an input change to the empty query closes the box, and in every
    reachable state with an empty query the box is closed, so that the
    suggestions are hidden although the filter result is the whole,
    non-empty registry. *)
Theorem filteredLocations_empty_query :
  filteredLocations "" = popularLocations /\
  (forall st : State,
      isOpen (fst (handleInputChange st "")) = false /\
      suggestionsShown (fst (handleInputChange st "")) = false /\
      snd (handleInputChange st "") = Some None) /\
  (forall st : State,
      reachable st -> query st = "" ->
      isOpen st = false /\
      suggestionsShown st = false /\
      noResultsShown st = false /\
      filteredLocations (query st) = popularLocations /\
      (0 <? List.length (filteredLocations (query st)))%nat = true).
Proof.
  assert (H0 : filteredLocations "" = popularLocations)
    by apply filter_matches_empty.
  split; [exact H0|]. split.
  - intros st. repeat split.
  - intros st Hr Hq.
    assert (Ho : isOpen st = false).
    { destruct (isOpen st) eqn:E; [|reflexivity].
      exfalso. now apply (reachable_open_nonempty st Hr). }
    unfold suggestionsShown, noResultsShown. rewrite Ho, Hq, H0.
    repeat split.
Qed.

(** The statement of C9 at the freshly mounted, empty search box after
    the user types a letter and deletes it again. *)
Lemma filteredLocations_empty_query_witness :
  reachable typedAndErased /\
  query typedAndErased = "" /\
  isOpen typedAndErased = false /\
  suggestionsShown typedAndErased = false /\
  filteredLocations (query typedAndErased) = popularLocations.
Proof.
  assert (Hr : reachable typedAndErased).
  { unfold typedAndErased. apply reachable_step; [|exact I].
    apply reachable_step; [|exact I]. apply reachable_init. }
  destruct filteredLocations_empty_query as [_ [_ H]].
  destruct (H typedAndErased Hr eq_refl) as [H1 [H2 [_ [H4 _]]]].
  repeat split; assumption.
Defined.

End SearchFilter.

(* ================================================================== *)
(** * Rounding and number formatting *)

Section Rounding.

Lemma Int_part_eq (z : Z) (r : R) : IZR z <= r < IZR z + 1 -> Int_part r = z.
Proof. intros H. symmetry. apply Int_part_spec. lra. Qed.

Lemma Int_part_bounds (r : R) : IZR (Int_part r) <= r < IZR (Int_part r) + 1.
Proof. destruct (base_Int_part r). lra. Qed.

Lemma floor_eq (z : Z) (r : R) : IZR z <= r < IZR z + 1 -> Math.floor r = z.
Proof. apply Int_part_eq. Qed.

Lemma round_eq (z : Z) (r : R) :
  IZR z - / 2 <= r < IZR z + / 2 -> Math.round r = z.
Proof. intros H. apply Int_part_eq. lra. Qed.


Lemma toFixed1_eq (n : Z) (x : R) :
  0 <= x -> IZR n - / 2 <= x * 10 < IZR n + / 2 ->
  Math.toFixed1 x =
  (JsString.ofInt (n / 10) ++ "." ++ JsString.ofInt (n mod 10))%string.
Proof.
  intros Hx Hn. unfold Math.toFixed1.
  destruct (Rlt_dec x 0) as [Hneg|_]; [lra|].
  rewrite (Int_part_eq n); [reflexivity | lra].
Qed.

End Rounding.

(* ================================================================== *)
(** * The route points *)

Section RoutePoints.

Import Route.

Lemma routeLoop_spec (s d : Location) (n i : nat) (points : list (R * R)) :
  routeLoop s d n i points = points ++ map (routePoint s d) (seq i n).
Proof.
  revert i points. induction n as [|n IH]; intros i points; simpl.
  - now rewrite app_nil_r.
  - rewrite IH, <- app_assoc. reflexivity.
Qed.

Lemma routePoints_map (s d : Location) :
  routePoints s d = map (routePoint s d) (seq 0 21).
Proof. unfold routePoints. now rewrite routeLoop_spec. Qed.

Lemma routePoints_length (s d : Location) :
  List.length (routePoints s d) = 21%nat.
Proof. rewrite routePoints_map, length_map, length_seq. reflexivity. Qed.

Lemma routePoints_nth_error (s d : Location) (i : nat) :
  (i <= 20)%nat -> nth_error (routePoints s d) i = Some (routePoint s d i).
Proof.
  intros Hi. rewrite routePoints_map.
  rewrite nth_error_map, nth_error_seq.
  destruct (Nat.ltb_spec i 21); [reflexivity | lia].
Qed.

Lemma INR_steps : INR steps = 20.
Proof. unfold steps. simpl. lra. Qed.

Lemma routePoint_first (s d : Location) : routePoint s d 0 = (lat s, lng s).
Proof.
  unfold routePoint. rewrite INR_steps. simpl INR.
  replace (0 / 20 * PI) with 0 by lra. rewrite sin_0. f_equal; lra.
Qed.

Lemma routePoint_last (s d : Location) : routePoint s d 20 = (lat d, lng d).
Proof.
  unfold routePoint. rewrite INR_steps.
  replace (INR 20) with 20 by (simpl; lra).
  replace (20 / 20 * PI) with PI by lra. rewrite sin_PI. f_equal; lra.
Qed.

Lemma routePoint_middle (s d : Location) :
  routePoint s d 10 = ((lat s + lat d) / 2 + 0.2, (lng s + lng d) / 2).
Proof.
  unfold routePoint. rewrite INR_steps.
  replace (INR 10) with 10 by (simpl; lra).
  replace (10 / 20 * PI) with (PI / 2) by lra. rewrite sin_PI2. f_equal; lra.
Qed.

(** C1. The route generator returns 21 points; point [i], with
    [t = i / 20], has latitude [lerp source.lat destination.lat t +
    sin (t * PI) * 0.2] and longitude [lerp source.lng destination.lng t];
    the first point is the source and the last one the destination (in
    exact arithmetic the curve offset vanishes at both ends). *)
Theorem routePoints_interpolation (source destination : Location) :
  List.length (routePoints source destination) = (steps + 1)%nat /\
  (steps + 1 = 21)%nat /\
  routePoints source destination =
    map (fun i : nat =>
           let t := INR i / 20 in
           (lerp (lat source) (lat destination) t + sin (t * PI) * 0.2,
            lerp (lng source) (lng destination) t))
        (seq 0 21) /\
  nth_error (routePoints source destination) 0 =
    Some (lat source, lng source) /\
  nth_error (routePoints source destination) 20 =
    Some (lat destination, lng destination).
Proof.
  split; [apply routePoints_length|]. split; [reflexivity|]. split.
  - rewrite routePoints_map. apply map_ext. intros i.
    unfold routePoint, lerp. rewrite INR_steps. reflexivity.
  - split.
    + rewrite routePoints_nth_error by lia. now rewrite routePoint_first.
    + rewrite routePoints_nth_error by lia. now rewrite routePoint_last.
Qed.

End RoutePoints.

(* ================================================================== *)
(** * The Haversine distance *)

Section Haversine.

Import Route.

Lemma haversine_a_sym (A B : Location) : haversine_a A B = haversine_a B A.
Proof.
  unfold haversine_a.
  replace ((lat A - lat B) * PI / 180 / 2)
    with (- ((lat B - lat A) * PI / 180 / 2)) by lra.
  replace ((lng A - lng B) * PI / 180 / 2)
    with (- ((lng B - lng A) * PI / 180 / 2)) by lra.
  rewrite !sin_neg. ring.
Qed.

(** C6. The Haversine distance does not depend on the direction of
    travel. *)
Theorem distance_symmetric (A B : Location) : distance A B = distance B A.
Proof. unfold distance. now rewrite (haversine_a_sym A B). Qed.

Lemma haversine_a_same (A : Location) : haversine_a A A = 0.
Proof.
  unfold haversine_a.
  replace ((lat A - lat A) * PI / 180 / 2) with 0 by lra.
  replace ((lng A - lng A) * PI / 180 / 2) with 0 by lra.
  rewrite sin_0. ring.
Qed.

Lemma atan2_pos (y x : R) : 0 < x -> Math.atan2 y x = atan (y / x).
Proof.
  intros Hx. unfold Math.atan2. destruct (Rlt_dec 0 x); [reflexivity | lra].
Qed.

Lemma distance_same (A : Location) : distance A A = 0.
Proof.
  unfold distance. rewrite haversine_a_same. unfold Math.sqrt.
  rewrite Rminus_0_r, sqrt_0, sqrt_1, atan2_pos by lra.
  replace (0 / 1) with 0 by lra. rewrite atan_0. ring.
Qed.

End Haversine.

(* ================================================================== *)
(** * The duration label *)

Section Duration.

Import Route JsString.
Open Scope string_scope.

Lemma hours_eq (h : Z) (d : R) :
  60 * IZR h <= d < 60 * (IZR h + 1) -> hours d = h.
Proof.
  intros H. unfold hours, durationHours. apply floor_eq. lra.
Qed.

Lemma minutes_eq (h m : Z) (d : R) :
  hours d = h ->
  IZR m - / 2 <= d - 60 * IZR h < IZR m + / 2 ->
  minutes d = m.
Proof.
  intros Hh Hm. unfold minutes, durationHours. rewrite Hh.
  apply round_eq. lra.
Qed.






End Duration.

(* ================================================================== *)
(** * A route from a place to itself *)

Section SamePlace.

Import Route JsString.
Open Scope string_scope.

Lemma registry_head :
  firstn 2 popularLocations = [visakhapatnam; vijayawada].
Proof. reflexivity. Qed.

Lemma distanceLabel_0 : distanceLabel 0 = "0.0 km".
Proof.
  unfold distanceLabel. rewrite (toFixed1_eq 0); [reflexivity | lra | simpl; lra].
Qed.

Lemma durationLabel_0 : durationLabel 0 = "0 min".
Proof.
  assert (Hh : hours 0 = 0%Z) by (apply hours_eq; simpl; lra).
  assert (Hm : minutes 0 = 0%Z) by (apply (minutes_eq 0); [exact Hh | simpl; lra]).
  unfold durationLabel. rewrite Hh, Hm. reflexivity.
Qed.

(** C3, as stated, fails: on the route from Visakhapatnam to itself the
    eleventh point lies 0.2 degrees north of the first one, so the 21
    points are not all equal to the place. *)
Lemma routePoints_same_not_equal :
  ~ (forall p : R * R,
        In p (routePoints visakhapatnam visakhapatnam) ->
        p = (lat visakhapatnam, lng visakhapatnam)).
Proof.
  intros H.
  assert (Hin : In (routePoint visakhapatnam visakhapatnam 10)
                   (routePoints visakhapatnam visakhapatnam)).
  { apply (nth_error_In _ 10). apply routePoints_nth_error. lia. }
  apply H in Hin. rewrite routePoint_middle in Hin.
  injection Hin as Hlat. simpl in Hlat. lra.
Qed.

(** C3, amended. The route from a place [A] to itself has 21 points, all
    on the longitude of [A]; point [i] has latitude
    [A.lat + sin (i / 20 * PI) * 0.2], so the first point is [A], the
    middle one lies 0.2 degrees north of it and the last one is [A] up to
    what the rounding of [sin PI] leaves; the computed distance is 0,
    shown as "0.0 km" and "0 min". *)
Theorem routePoints_same_place (A : Location) :
  List.length (routePoints A A) = 21%nat /\
  routePoints A A =
    map (fun i : nat => (lat A + sin (INR i / 20 * PI) * 0.2, lng A))
        (seq 0 21) /\
  nth_error (routePoints A A) 0 = Some (lat A, lng A) /\
  nth_error (routePoints A A) 10 = Some (lat A + 0.2, lng A) /\
  (exists p : R * R,
      nth_error (routePoints A A) 20 = Some p /\
      Rabs (fst p - lat A) <= tolerance /\ snd p = lng A) /\
  distance A A = 0 /\
  distanceLabel (distance A A) = "0.0 km" /\
  durationLabel (distance A A) = "0 min".
Proof.
  split; [apply routePoints_length|]. split.
  { rewrite routePoints_map. apply map_ext. intros i.
    unfold routePoint. rewrite INR_steps. f_equal; lra. }
  split.
  { rewrite routePoints_nth_error by lia. now rewrite routePoint_first. }
  split.
  { rewrite routePoints_nth_error by lia. rewrite routePoint_middle.
    do 2 f_equal; lra. }
  split.
  { exists (lat A, lng A). split.
    - rewrite routePoints_nth_error by lia. now rewrite routePoint_last.
    - cbn [fst snd]. unfold tolerance. rewrite Rminus_diag, Rabs_R0.
      split; [lra | reflexivity]. }
  rewrite distance_same.
  split; [reflexivity|]. split; [exact distanceLabel_0 | exact durationLabel_0].
Qed.

End SamePlace.

(* ================================================================== *)
(** * Sidebar operations *)

Section Sidebar.

Import App.

Lemma calculateRoute_begin_missing (st : State) :
  source st = None \/ destination st = None ->
  calculateRoute_begin st = (st, None).
Proof.
  unfold calculateRoute_begin.
  intros [H|H]; rewrite H; [reflexivity | now destruct (source st)].
Qed.

(** C7. With the source or the destination absent, [calculateRoute]
    stops at its guard: nothing is captured for a later continuation, so
    no points are computed, and the state - route and route summary
    included - is the one before the call; the button that triggers the
    call is disabled in such a state. *)
Theorem calculateRoute_missing_noop (st : State) :
  source st = None \/ destination st = None ->
  calculateRoute_begin st = (st, None) /\
  calculateRoute st = st /\
  route (calculateRoute st) = route st /\
  routeInfo (calculateRoute st) = routeInfo st /\
  calculateDisabled st = true.
Proof.
  intros H. pose proof (calculateRoute_begin_missing st H) as Hb.
  assert (Hc : calculateRoute st = st).
  { unfold calculateRoute. now rewrite Hb. }
  split; [exact Hb|]. split; [exact Hc|]. rewrite Hc.
  split; [reflexivity|]. split; [reflexivity|].
  unfold calculateDisabled.
  destruct H as [H|H]; rewrite H; simpl; [reflexivity|].
  now rewrite orb_true_r.
Qed.

(** C7 at [staleState]. *)
Lemma calculateRoute_missing_noop_witness :
  calculateRoute staleState = staleState /\
  route (calculateRoute staleState) =
    Some (Route.routePoints visakhapatnam vijayawada) /\
  routeInfo (calculateRoute staleState) = Some (mkRouteInfo "1.0 km" "1 min") /\
  calculateDisabled staleState = true.
Proof.
  destruct (calculateRoute_missing_noop staleState (or_introl eq_refl))
    as [_ [H1 [H2 [H3 H4]]]].
  repeat split; assumption.
Defined.

(** With both places present the call does go on. *)
Lemma calculateRoute_present (st : State) (s d : Location) :
  source st = Some s -> destination st = Some d ->
  route (calculateRoute st) = Some (Route.routePoints s d) /\
  routeInfo (calculateRoute st) =
    Some (mkRouteInfo (Route.distanceLabel (Route.distance s d))
                      (Route.durationLabel (Route.distance s d))) /\
  isCalculating (calculateRoute st) = false /\
  source (calculateRoute st) = Some s /\
  destination (calculateRoute st) = Some d.
Proof.
  intros Hs Hd. unfold calculateRoute, calculateRoute_begin.
  rewrite Hs, Hd. simpl. rewrite Hs, Hd. repeat split.
Qed.

Lemma swapLocations_source (st : State) :
  source (swapLocations st) = destination st.
Proof. reflexivity. Qed.

Lemma swapLocations_destination (st : State) :
  destination (swapLocations st) = source st.
Proof. reflexivity. Qed.

Lemma swapLocations_routeInfo (st : State) :
  routeInfo (swapLocations st) = None.
Proof. reflexivity. Qed.

Lemma swapLocations_route (st : State) :
  route (swapLocations st) = route st.
Proof. reflexivity. Qed.

(** C8. [swapLocations] exchanges source and destination, so that two
    swaps restore the selection, and clears the route summary; every other
    part of the state is left as it was, in particular the route of the
    page, and with it the polyline on the map. *)
Theorem swapLocations_frame (st : State) :
  source (swapLocations st) = destination st /\
  destination (swapLocations st) = source st /\
  routeInfo (swapLocations st) = None /\
  route (swapLocations st) = route st /\
  routeLayer (route (swapLocations st)) = routeLayer (route st) /\
  selectedLocation (swapLocations st) = selectedLocation st /\
  isCollapsed (swapLocations st) = isCollapsed st /\
  isCalculating (swapLocations st) = isCalculating st /\
  startSearch (swapLocations st) = startSearch st /\
  destinationSearch (swapLocations st) = destinationSearch st /\
  source (swapLocations (swapLocations st)) = source st /\
  destination (swapLocations (swapLocations st)) = destination st.
Proof. repeat split. Qed.

(** After a calculated route and a swap, the map still shows the route
    that starts at the old source although the source is now the old
    destination. *)
Lemma swapLocations_stale_route (st : State) (s d : Location) :
  source st = Some s -> destination st = Some d ->
  let st' := swapLocations (calculateRoute st) in
  source st' = Some d /\
  routeLayer (route st') = Some (Route.routePoints s d) /\
  nth_error (Route.routePoints s d) 0 = Some (lat s, lng s) /\
  routeInfo st' = None.
Proof.
  intros Hs Hd.
  destruct (calculateRoute_present st s d Hs Hd) as [Hr [_ [_ [Hs' Hd']]]].
  intros st'.
  split; [unfold st'; now rewrite swapLocations_source|].
  split.
  { unfold st'. rewrite swapLocations_route, Hr. unfold routeLayer.
    now rewrite routePoints_length. }
  split; [|apply swapLocations_routeInfo].
  rewrite routePoints_nth_error by lia. now rewrite routePoint_first.
Qed.

End Sidebar.

(* ================================================================== *)
(** * The worked example: Visakhapatnam to Vijayawada *)

Section WorkedExample.

Import Route JsString.
Open Scope string_scope.

Lemma PI_bounds : 3.1415926 < PI < 3.1415927.
Proof.
  pose proof (PI_2_3_7_ineq 3) as [Hlo Hhi].
  unfold tg_alt, PI_2_3_7_tg, Ratan_seq in Hlo, Hhi.
  simpl in Hlo, Hhi.
  split; lra.
Qed.

(** Taylor polynomials around the sine and the cosine. *)
Lemma sin_poly_bounds (x : R) :
  0 <= x <= PI ->
  x - x ^ 3 / 6 <= sin x <= x - x ^ 3 / 6 + x ^ 5 / 120.
Proof.
  intros [H0 H1]. pose proof (sin_bound x 0 H0 H1) as [Hlo Hhi].
  unfold sin_approx, sin_term in Hlo, Hhi. simpl in Hlo, Hhi.
  split; lra.
Qed.

Lemma cos_poly_bounds (x : R) :
  - PI / 2 <= x <= PI / 2 ->
  1 - x ^ 2 / 2 + x ^ 4 / 24 - x ^ 6 / 720 <= cos x
    <= 1 - x ^ 2 / 2 + x ^ 4 / 24.
Proof.
  intros [H0 H1].
  pose proof (cos_bound x 0 H0 H1) as [_ Hhi].
  pose proof (cos_bound x 1 H0 H1) as [Hlo _].
  unfold cos_approx, cos_term in Hlo, Hhi. simpl in Hlo, Hhi.
  split; lra.
Qed.

(** Enclosures of [sin x] and [cos x] from rational enclosures of [x]. *)
Lemma sin_lower (x lo b : R) :
  0 <= lo <= x -> x <= 1 -> b <= lo - lo ^ 3 / 6 -> b <= sin x.
Proof.
  intros [H0 H1] H2 Hb. pose proof PI_bounds as [HP _].
  apply Rle_trans with (1 := Hb).
  apply Rle_trans with (sin lo).
  - apply sin_poly_bounds. lra.
  - apply sin_incr_1; lra.
Qed.

Lemma sin_upper (x hi b : R) :
  0 <= x <= hi -> hi <= 1 -> hi - hi ^ 3 / 6 + hi ^ 5 / 120 <= b -> sin x <= b.
Proof.
  intros [H0 H1] H2 Hb. pose proof PI_bounds as [HP _].
  apply Rle_trans with (2 := Hb).
  apply Rle_trans with (sin hi).
  - apply sin_incr_1; lra.
  - apply sin_poly_bounds. lra.
Qed.

Lemma cos_lower (x hi b : R) :
  0 <= x <= hi -> hi <= 1 ->
  b <= 1 - hi ^ 2 / 2 + hi ^ 4 / 24 - hi ^ 6 / 720 -> b <= cos x.
Proof.
  intros [H0 H1] H2 Hb. pose proof PI_bounds as [HP _].
  apply Rle_trans with (1 := Hb).
  apply Rle_trans with (cos hi).
  - apply cos_poly_bounds. lra.
  - apply cos_decr_1; lra.
Qed.

Lemma cos_upper (x lo b : R) :
  0 <= lo <= x -> x <= 1 ->
  1 - lo ^ 2 / 2 + lo ^ 4 / 24 <= b -> cos x <= b.
Proof.
  intros [H0 H1] H2 Hb. pose proof PI_bounds as [HP _].
  apply Rle_trans with (2 := Hb).
  apply Rle_trans with (cos lo).
  - apply cos_decr_1; lra.
  - apply cos_poly_bounds. lra.
Qed.

Lemma Rdiv_le_compat (x y u v : R) :
  0 <= x <= y -> 0 < v <= u -> x / u <= y / v.
Proof.
  intros [Hx Hxy] [Hv Hvu].
  apply Rle_trans with (y / u).
  - apply Rmult_le_compat_r; [|exact Hxy].
    left. apply Rinv_0_lt_compat. lra.
  - apply Rmult_le_compat_l; [lra|].
    apply Rinv_le_contravar; assumption.
Qed.

Lemma atan_le (x y : R) : x <= y -> atan x <= atan y.
Proof.
  intros [H| ->]; [left; now apply atan_increasing | right; reflexivity].
Qed.

(** The angle whose squared sine is [a]: if [a] lies between the squared
    sines of two acute angles, the angle returned by [Math.atan2] lies
    between them. *)
Lemma atan2_sqrt_bounds (a L U : R) :
  0 < L -> L <= U -> U < PI / 2 ->
  sin L * sin L <= a <= sin U * sin U ->
  L <= Math.atan2 (Math.sqrt a) (Math.sqrt (1 - a)) <= U.
Proof.
  intros HL HLU HU [Hlo Hhi]. unfold Math.sqrt.
  assert (HsL : 0 < sin L) by (apply sin_gt_0; lra).
  assert (HsU : 0 < sin U) by (apply sin_gt_0; lra).
  assert (HcL : 0 < cos L) by (apply cos_gt_0; lra).
  assert (HcU : 0 < cos U) by (apply cos_gt_0; lra).
  pose proof (sin2_cos2 L) as HL2. pose proof (sin2_cos2 U) as HU2.
  unfold Rsqr in HL2, HU2.
  assert (Ha1 : cos U * cos U <= 1 - a <= cos L * cos L) by lra.
  assert (Hsa1 : sin L <= sqrt a).
  { rewrite <- (sqrt_square (sin L)) by lra. apply sqrt_le_1_alt. exact Hlo. }
  assert (Hsa2 : sqrt a <= sin U).
  { rewrite <- (sqrt_square (sin U)) by lra. apply sqrt_le_1_alt. exact Hhi. }
  assert (Hsb1 : cos U <= sqrt (1 - a)).
  { rewrite <- (sqrt_square (cos U)) by lra. apply sqrt_le_1_alt. lra. }
  assert (Hsb2 : sqrt (1 - a) <= cos L).
  { rewrite <- (sqrt_square (cos L)) by lra. apply sqrt_le_1_alt. lra. }
  rewrite atan2_pos by lra.
  split.
  - apply Rle_trans with (atan (tan L)); [rewrite atan_tan; lra|].
    apply atan_le. unfold tan. apply Rdiv_le_compat; lra.
  - apply Rle_trans with (atan (tan U)); [|rewrite atan_tan; lra].
    apply atan_le. unfold tan. apply Rdiv_le_compat; lra.
Qed.

Lemma haversine_a_example :
  haversine_a visakhapatnam vijayawada =
  sin (0.5903 * PI / 180) * sin (0.5903 * PI / 180) +
  cos (17.6868 * PI / 180) * cos (16.5062 * PI / 180) *
  sin (1.28525 * PI / 180) * sin (1.28525 * PI / 180).
Proof.
  unfold haversine_a, visakhapatnam, vijayawada. cbn [lat lng].
  replace ((16.5062 - 17.6868) * PI / 180 / 2)
    with (- (0.5903 * PI / 180)) by lra.
  replace ((80.6480 - 83.2185) * PI / 180 / 2)
    with (- (1.28525 * PI / 180)) by lra.
  rewrite !sin_neg. ring.
Qed.

Lemma haversine_a_example_bounds :
  0.0005656999021 <= haversine_a visakhapatnam vijayawada <= 0.0005657372213.
Proof.
  rewrite haversine_a_example. pose proof PI_bounds as [HP1 HP2].
  assert (S1lo : 0.010302496135 <= sin (0.5903 * PI / 180)).
  { apply (sin_lower _ (0.5903 * 3.1415926 / 180)); lra. }
  assert (S1hi : sin (0.5903 * PI / 180) <= 0.010302496465).
  { apply (sin_upper _ (0.5903 * 3.1415927 / 180)); lra. }
  assert (S2lo : 0.022429962590 <= sin (1.28525 * PI / 180)).
  { apply (sin_lower _ (1.28525 * 3.1415926 / 180)); lra. }
  assert (S2hi : sin (1.28525 * PI / 180) <= 0.022429963353).
  { apply (sin_upper _ (1.28525 * 3.1415927 / 180)); lra. }
  assert (C1lo : 0.9527314967 <= cos (17.6868 * PI / 180)).
  { apply (cos_lower _ (17.6868 * 3.1415927 / 180)); lra. }
  assert (C1hi : cos (17.6868 * PI / 180) <= 0.9527327016).
  { apply (cos_upper _ (17.6868 * 3.1415926 / 180)); lra. }
  assert (C2lo : 0.9587889934 <= cos (16.5062 * PI / 180)).
  { apply (cos_lower _ (16.5062 * 3.1415927 / 180)); lra. }
  assert (C2hi : cos (16.5062 * PI / 180) <= 0.9587897901).
  { apply (cos_upper _ (16.5062 * 3.1415926 / 180)); lra. }
  generalize dependent (sin (0.5903 * PI / 180)).
  generalize dependent (sin (1.28525 * PI / 180)).
  generalize dependent (cos (17.6868 * PI / 180)).
  generalize dependent (cos (16.5062 * PI / 180)).
  intros c2 C2lo C2hi c1 C1lo C1hi s2 S2lo S2hi s1 S1lo S1hi.
  assert (H11lo : 0.010302496135 * 0.010302496135 <= s1 * s1)
    by (apply Rmult_le_compat; lra).
  assert (H11hi : s1 * s1 <= 0.010302496465 * 0.010302496465)
    by (apply Rmult_le_compat; lra).
  assert (H22lo : 0.022429962590 * 0.022429962590 <= s2 * s2)
    by (apply Rmult_le_compat; lra).
  assert (H22hi : s2 * s2 <= 0.022429963353 * 0.022429963353)
    by (apply Rmult_le_compat; lra).
  assert (Hcclo : 0.9527314967 * 0.9587889934 <= c1 * c2)
    by (apply Rmult_le_compat; lra).
  assert (Hcchi : c1 * c2 <= 0.9527327016 * 0.9587897901)
    by (apply Rmult_le_compat; lra).
  assert (Hplo : 0.9527314967 * 0.9587889934 * (0.022429962590 * 0.022429962590)
                 <= c1 * c2 * (s2 * s2))
    by (apply Rmult_le_compat; lra).
  assert (Hphi : c1 * c2 * (s2 * s2)
                 <= 0.9527327016 * 0.9587897901 * (0.022429963353 * 0.022429963353)).
  { apply Rmult_le_compat; lra. }
  replace (c1 * c2 * s2 * s2) with (c1 * c2 * (s2 * s2)) by ring.
  split; lra.
Qed.

Lemma distance_example_bounds :
  303.09 <= distance visakhapatnam vijayawada <= 303.10.
Proof.
  pose proof haversine_a_example_bounds as [Halo Hahi].
  pose proof PI_bounds as [HP1 HP2].
  assert (HL : sin (303.09 / 12742) <= 0.023784446641).
  { apply (sin_upper _ (303.09 / 12742)); lra. }
  assert (HU : 0.023785231160 <= sin (303.10 / 12742)).
  { apply (sin_lower _ (303.10 / 12742)); lra. }
  assert (HL0 : 0 < sin (303.09 / 12742)) by (apply sin_gt_0; lra).
  assert (Hab : sin (303.09 / 12742) * sin (303.09 / 12742)
                <= haversine_a visakhapatnam vijayawada
                <= sin (303.10 / 12742) * sin (303.10 / 12742)).
  { split.
    - apply Rle_trans with (0.023784446641 * 0.023784446641); [|lra].
      apply Rmult_le_compat; lra.
    - apply Rle_trans with (0.023785231160 * 0.023785231160); [lra|].
      apply Rmult_le_compat; lra. }
  pose proof (atan2_sqrt_bounds _ (303.09 / 12742) (303.10 / 12742)
                ltac:(lra) ltac:(lra) ltac:(lra) Hab) as [H1 H2].
  unfold distance. lra.
Qed.

Lemma durationLabel_291 : durationLabel 291 = "4h 51m".
Proof.
  assert (Hh : hours 291 = 4%Z) by (apply hours_eq; simpl; lra).
  assert (Hm : minutes 291 = 51%Z) by (apply (minutes_eq 4); [exact Hh | simpl; lra]).
  unfold durationLabel. rewrite Hh, Hm. reflexivity.
Qed.

Lemma hours_example : hours (distance visakhapatnam vijayawada) = 5%Z.
Proof.
  pose proof distance_example_bounds. apply hours_eq. simpl. lra.
Qed.

Lemma minutes_example : minutes (distance visakhapatnam vijayawada) = 3%Z.
Proof.
  pose proof distance_example_bounds.
  apply (minutes_eq 5); [exact hours_example | simpl; lra].
Qed.

Lemma durationLabel_example :
  durationLabel (distance visakhapatnam vijayawada) = "5h 3m".
Proof.
  unfold durationLabel. rewrite hours_example, minutes_example. reflexivity.
Qed.

Lemma distanceLabel_example :
  distanceLabel (distance visakhapatnam vijayawada) = "303.1 km".
Proof.
  pose proof distance_example_bounds.
  unfold distanceLabel. rewrite (toFixed1_eq 3031); [reflexivity | lra | simpl; lra].
Qed.

(** C4, as stated, fails: the distance computed for Visakhapatnam and
    Vijayawada is more than 12 km above 291 km, and its duration label is
    not "4h 51m". *)
Lemma distance_example_not_291 :
  291 + 12 < distance visakhapatnam vijayawada /\
  durationLabel (distance visakhapatnam vijayawada) <> "4h 51m".
Proof.
  split.
  - pose proof distance_example_bounds. lra.
  - rewrite durationLabel_example. discriminate.
Qed.

(** C4, amended. For source (17.6868, 83.2185) and destination
    (16.5062, 80.6480) the Haversine computation with Earth radius 6371 km
    yields a distance between 303.09 km and 303.10 km, shown as
    "303.1 km", and the duration label derived from it is "5h 3m";
    this is the summary [calculateRoute] stores for the two places. *)
Theorem distance_example :
  lat visakhapatnam = 17.6868 /\ lng visakhapatnam = 83.2185 /\
  lat vijayawada = 16.5062 /\ lng vijayawada = 80.6480 /\
  303.09 <= distance visakhapatnam vijayawada <= 303.10 /\
  distanceLabel (distance visakhapatnam vijayawada) = "303.1 km" /\
  hours (distance visakhapatnam vijayawada) = 5%Z /\
  minutes (distance visakhapatnam vijayawada) = 3%Z /\
  durationLabel (distance visakhapatnam vijayawada) = "5h 3m" /\
  (forall st : App.State,
      App.routeInfo (App.calculateRoute_resume visakhapatnam vijayawada st) =
      Some (App.mkRouteInfo "303.1 km" "5h 3m")).
Proof.
  do 4 (split; [reflexivity|]).
  split; [exact distance_example_bounds|].
  split; [exact distanceLabel_example|].
  split; [exact hours_example|].
  split; [exact minutes_example|].
  split; [exact durationLabel_example|].
  intros st. unfold App.calculateRoute_resume. cbn [App.routeInfo
    App.setIsCalculating App.handleRouteCalculate App.setRoute App.setRouteInfo].
  now rewrite distanceLabel_example, durationLabel_example.
Qed.

End WorkedExample.

(* ================================================================== *)
(** * More on the search box *)

Section SearchBox.

Import JsString LocationSearch.
Open Scope string_scope.

Lemma string_app_assoc (a b c : string) : (a ++ b) ++ c = a ++ b ++ c.
Proof. induction a as [|x a IH]; simpl; [reflexivity | now rewrite IH]. Qed.

Lemma string_app_length (a b : string) :
  String.length (a ++ b) = (String.length a + String.length b)%nat.
Proof. induction a as [|x a IH]; simpl; [reflexivity | now rewrite IH]. Qed.

Lemma toLowerCase_app (a b : string) :
  toLowerCase (a ++ b) = toLowerCase a ++ toLowerCase b.
Proof. induction a as [|x a IH]; simpl; [reflexivity | now rewrite IH]. Qed.

Lemma toLowerCase_length (a : string) :
  String.length (toLowerCase a) = String.length a.
Proof. induction a as [|x a IH]; simpl; [reflexivity | now rewrite IH]. Qed.

Lemma lowerCodeUnit_idempotent (c : ascii) :
  lowerCodeUnit (lowerCodeUnit c) = lowerCodeUnit c.
Proof. destruct c as [[] [] [] [] [] [] [] []]; reflexivity. Qed.

Lemma toLowerCase_idempotent (a : string) :
  toLowerCase (toLowerCase a) = toLowerCase a.
Proof.
  induction a as [|x a IH]; simpl; [reflexivity|].
  now rewrite lowerCodeUnit_idempotent, IH.
Qed.

Lemma Contains_trans (s q' q : string) :
  Contains s q' -> Contains q' q -> Contains s q.
Proof.
  intros [p1 [t1 H1]] [p2 [t2 H2]]. exists (p1 ++ p2), (t2 ++ t1).
  rewrite H1, H2. now rewrite !string_app_assoc.
Qed.

Lemma Contains_toLowerCase (s q : string) :
  Contains s q -> Contains (toLowerCase s) (toLowerCase q).
Proof.
  intros [p [t H]]. exists (toLowerCase p), (toLowerCase t).
  now rewrite H, !toLowerCase_app.
Qed.

Lemma Contains_length (s q : string) :
  Contains s q -> (String.length q <= String.length s)%nat.
Proof.
  intros [p [t H]]. rewrite H, !string_app_length. lia.
Qed.

Lemma filter_filter_implied {A : Type} (f g : A -> bool) (l : list A) :
  (forall x, f x = true -> g x = true) ->
  filter f (filter g l) = filter f l.
Proof.
  intros Hfg. induction l as [|x l IH]; simpl; [reflexivity|].
  destruct (g x) eqn:Eg; simpl.
  - now rewrite IH.
  - destruct (f x) eqn:Ef; [|exact IH].
    apply Hfg in Ef. congruence.
Qed.

(** X1. A longer query narrows the result: when the query [q'] contains
    the query [q], the result for [q'] is the result for [q] filtered
    once more, hence an order-preserving sub-list of it. *)
Theorem filteredLocations_narrows (q q' : string) :
  Contains q' q ->
  filteredLocations q' = filter (matches q') (filteredLocations q) /\
  Subsequence (filteredLocations q') (filteredLocations q).
Proof.
  intros Hq.
  assert (H : filteredLocations q' = filter (matches q') (filteredLocations q)).
  { unfold filteredLocations. symmetry. apply filter_filter_implied.
    intros loc. rewrite !matches_spec. intros Hc.
    apply (Contains_trans _ _ _ Hc). now apply Contains_toLowerCase. }
  split; [exact H|]. rewrite H. apply filter_Subsequence.
Qed.

(** X1 for the queries "ka" and "kak". *)
Lemma filteredLocations_narrows_witness :
  Contains "kak" "ka" /\
  Subsequence (filteredLocations "kak") (filteredLocations "ka").
Proof.
  assert (H : Contains "kak" "ka") by (exists "", "k"; reflexivity).
  split; [exact H | apply (filteredLocations_narrows "ka" "kak" H)].
Defined.

(** X2. The filter does not see the case of the query: lowering the
    query first gives the same result. *)
Theorem filteredLocations_case_insensitive (q : string) :
  filteredLocations (toLowerCase q) = filteredLocations q.
Proof.
  unfold filteredLocations. apply filter_ext. intros loc.
  unfold matches. now rewrite toLowerCase_idempotent.
Qed.

(** X3. Every registry entry is found by any piece of its name, its
    whole name included. *)
Theorem filteredLocations_finds_name (loc : Location) (q : string) :
  In loc popularLocations -> Contains (name loc) q ->
  In loc (filteredLocations q).
Proof.
  intros Hin Hc. unfold filteredLocations. apply filter_In.
  split; [exact Hin|]. apply matches_spec. now apply Contains_toLowerCase.
Qed.

(** X3 for Visakhapatnam and the query "patnam". *)
Lemma filteredLocations_finds_name_witness :
  In visakhapatnam (filteredLocations "patnam").
Proof.
  apply filteredLocations_finds_name.
  - left. reflexivity.
  - exists "Visakha", "". reflexivity.
Defined.

Lemma popularLocations_names_short :
  Forall (fun loc => (String.length (name loc) <= 13)%nat) popularLocations.
Proof. repeat constructor. Qed.

(** X4. A query of more than 13 characters, the length of the longest
    registry name, matches nothing, and an open box then shows the
    "No locations found" panel. *)
Theorem filteredLocations_long_query (q : string) :
  (13 < String.length q)%nat ->
  filteredLocations q = [] /\
  (forall st : State,
      query st = q -> isOpen st = true ->
      noResultsShown st = true /\ suggestionsShown st = false).
Proof.
  intros Hlen.
  assert (H : filteredLocations q = []).
  { unfold filteredLocations.
    pose proof popularLocations_names_short as Hs.
    induction popularLocations as [|loc l IH]; simpl; [reflexivity|].
    inversion Hs as [|? ? Hloc Hl]; subst.
    destruct (matches q loc) eqn:E; [|now apply IH].
    apply matches_spec, Contains_length in E.
    rewrite !toLowerCase_length in E. lia. }
  split; [exact H|]. intros st Hq Ho.
  unfold noResultsShown, suggestionsShown. rewrite Ho, Hq, H. simpl.
  split; [|reflexivity].
  destruct (String.length q); [lia | reflexivity].
Qed.

(** X4 for a query of 14 characters. *)
Lemma filteredLocations_long_query_witness :
  filteredLocations "visakhapatnamx" = [].
Proof.
  apply filteredLocations_long_query. simpl. lia.
Defined.

(** X5. An open box shows exactly one of its two panels, the suggestion
    list or "No locations found", whatever the query; a closed box shows
    neither. *)
Theorem dropdown_panels_exclusive (st : State) :
  (isOpen st = true -> suggestionsShown st = negb (noResultsShown st)) /\
  (isOpen st = false -> suggestionsShown st = false /\ noResultsShown st = false).
Proof.
  unfold suggestionsShown, noResultsShown. split; intros Ho; rewrite Ho; simpl.
  - destruct (filteredLocations (query st)) as [|loc l] eqn:E; simpl.
    + destruct (query st) as [|c q']; [|reflexivity].
      unfold filteredLocations in E. rewrite filter_matches_empty in E.
      discriminate.
    + reflexivity.
  - split; reflexivity.
Qed.

(** X5 at an open box with the query "v" and at a closed one. *)
Lemma dropdown_panels_exclusive_witness :
  suggestionsShown (mkState "v" true false) =
    negb (noResultsShown (mkState "v" true false)) /\
  suggestionsShown (mkState "v" false false) = false.
Proof.
  split.
  - apply (dropdown_panels_exclusive (mkState "v" true false)). reflexivity.
  - apply (dropdown_panels_exclusive (mkState "v" false false)). reflexivity.
Defined.

End SearchBox.

(* ================================================================== *)
(** * More on the route points *)

Section RouteShape.

Import Route.

Lemma routePoint_reverse (s d : Location) (i : nat) :
  (i <= 20)%nat -> routePoint d s i = routePoint s d (20 - i).
Proof.
  intros Hi. unfold routePoint. rewrite INR_steps, minus_INR by exact Hi.
  replace (INR 20) with 20 by (simpl; lra).
  replace ((20 - INR i) / 20 * PI) with (PI - INR i / 20 * PI) by lra.
  rewrite sin_PI_x. f_equal; lra.
Qed.

(** On the real reading the two paths coincide. *)
Lemma routePoints_rev (s d : Location) :
  routePoints d s = rev (routePoints s d).
Proof.
  rewrite !routePoints_map. cbn [seq map rev app].
  repeat (f_equal; [apply (routePoint_reverse s d); lia|]).
  f_equal. apply (routePoint_reverse s d). lia.
Qed.

Lemma Forall2_same {A : Type} (P : A -> A -> Prop) (l : list A) :
  (forall x, P x x) -> Forall2 P l l.
Proof. intros H. induction l; constructor; auto. Qed.

(** X6. For places with coordinates in range, the path from [d] to [s]
    is the path from [s] to [d] walked backwards: point by point the two
    agree in latitude and in longitude up to the tolerance left for
    rounding. *)
Theorem routePoints_reverse (s d : Location) :
  inRange s -> inRange d ->
  Forall2 (fun p q : R * R =>
             Rabs (fst p - fst q) <= tolerance /\
             Rabs (snd p - snd q) <= tolerance)
          (routePoints d s) (rev (routePoints s d)).
Proof.
  intros _ _. rewrite routePoints_rev. apply Forall2_same.
  intros p. unfold tolerance. rewrite !Rminus_diag, Rabs_R0. lra.
Qed.

(** X6 for Visakhapatnam and Vijayawada. *)
Lemma routePoints_reverse_witness :
  Forall2 (fun p q : R * R =>
             Rabs (fst p - fst q) <= tolerance /\
             Rabs (snd p - snd q) <= tolerance)
          (routePoints vijayawada visakhapatnam)
          (rev (routePoints visakhapatnam vijayawada)).
Proof.
  apply (routePoints_reverse visakhapatnam vijayawada);
    unfold inRange; simpl; lra.
Defined.

Lemma curve_range (i : nat) :
  (i <= 20)%nat -> 0 <= sin (INR i / 20 * PI) <= 1.
Proof.
  intros Hi. pose proof PI_RGT_0 as HP.
  assert (H0 : 0 <= INR i) by apply pos_INR.
  assert (H1 : INR i <= 20).
  { replace 20 with (INR 20) by (simpl; lra). now apply le_INR. }
  split.
  - apply sin_ge_0; nra.
  - apply SIN_bound.
Qed.

(** The bounds on the real reading, without room for rounding. *)
Lemma routePoints_bounds_exact (s d : Location) :
  Forall (fun p : R * R =>
            Rmin (lat s) (lat d) <= fst p <= Rmax (lat s) (lat d) + 0.2 /\
            Rmin (lng s) (lng d) <= snd p <= Rmax (lng s) (lng d))
         (routePoints s d).
Proof.
  rewrite routePoints_map. apply Forall_map, Forall_forall.
  intros i Hi. apply in_seq in Hi.
  assert (Hi' : (i <= 20)%nat) by lia.
  pose proof (curve_range i Hi') as [Hc0 Hc1].
  assert (H0 : 0 <= INR i / 20).
  { pose proof (pos_INR i). lra. }
  assert (H1 : INR i / 20 <= 1).
  { assert (INR i <= INR 20) by now apply le_INR.
    replace (INR 20) with 20 in * by (simpl; lra). lra. }
  unfold routePoint. rewrite INR_steps. cbn [fst snd].
  set (t := INR i / 20) in *. set (c := sin (t * PI)) in *.
  unfold Rmin, Rmax.
  destruct (Rle_dec (lat s) (lat d)); destruct (Rle_dec (lng s) (lng d));
    repeat split; nra.
Qed.

(** X7. For places with coordinates in range, every point of the route
    lies, up to the tolerance left for rounding, in longitude between the
    two places and in latitude between the southern one and 0.2 degrees
    north of the northern one: the curve only bends north, by 0.2
    degrees at most. *)
Theorem routePoints_bounds (s d : Location) :
  inRange s -> inRange d ->
  Forall (fun p : R * R =>
            Rmin (lat s) (lat d) - tolerance <= fst p
              <= Rmax (lat s) (lat d) + 0.2 + tolerance /\
            Rmin (lng s) (lng d) - tolerance <= snd p
              <= Rmax (lng s) (lng d) + tolerance)
         (routePoints s d).
Proof.
  intros _ _. apply Forall_impl with (2 := routePoints_bounds_exact s d).
  intros p. unfold tolerance. lra.
Qed.

(** X7 for Visakhapatnam and Vijayawada. *)
Lemma routePoints_bounds_witness :
  Forall (fun p : R * R =>
            16.5062 - tolerance <= fst p <= 17.6868 + 0.2 + tolerance /\
            80.6480 - tolerance <= snd p <= 83.2185 + tolerance)
         (routePoints visakhapatnam vijayawada).
Proof.
  pose proof (routePoints_bounds visakhapatnam vijayawada) as H.
  unfold inRange in H. cbn [lat lng visakhapatnam vijayawada] in H.
  replace (Rmin 17.6868 16.5062) with 16.5062 in H
    by (unfold Rmin; destruct (Rle_dec 17.6868 16.5062); lra).
  replace (Rmax 17.6868 16.5062) with 17.6868 in H
    by (unfold Rmax; destruct (Rle_dec 17.6868 16.5062); lra).
  replace (Rmin 83.2185 80.6480) with 80.6480 in H
    by (unfold Rmin; destruct (Rle_dec 83.2185 80.6480); lra).
  replace (Rmax 83.2185 80.6480) with 83.2185 in H
    by (unfold Rmax; destruct (Rle_dec 83.2185 80.6480); lra).
  apply H; lra.
Defined.

End RouteShape.

(* ================================================================== *)
(** * More on the distance and the duration *)

Section DistanceRange.

Import Route.

Lemma cos_degrees_nonneg (x : R) : -90 <= x <= 90 -> 0 <= cos (x * PI / 180).
Proof.
  intros [H0 H1]. pose proof PI_RGT_0 as HP. apply cos_ge_0; nra.
Qed.

Lemma sin_le_arg (x : R) : 0 <= x -> sin x <= x.
Proof.
  intros [H| <-]; [left; now apply sin_lt_x | rewrite sin_0; lra].
Qed.

Lemma sin_sqr_le_sqr (x : R) : -1 <= x <= 1 -> sin x * sin x <= x * x.
Proof.
  intros [H0 H1]. pose proof PI_bounds as [HP _].
  destruct (Rle_dec 0 x) as [Hx|Hx].
  - pose proof (sin_le_arg x Hx). pose proof (sin_ge_0 x Hx ltac:(lra)). nra.
  - assert (Hn : 0 <= - x) by lra.
    pose proof (sin_le_arg (- x) Hn) as H2.
    pose proof (sin_ge_0 (- x) Hn ltac:(lra)) as H3.
    rewrite sin_neg in H2, H3. nra.
Qed.

Lemma sin_sqr_lower (x x0 b : R) :
  0 <= x0 -> x0 <= x <= 1 \/ -1 <= x <= - x0 ->
  0 <= b <= x0 - x0 ^ 3 / 6 ->
  b * b <= sin x * sin x.
Proof.
  intros H0 Hx [Hb0 Hb1].
  destruct Hx as [[Hx0 Hx1]|[Hx1 Hx0]].
  - pose proof (sin_lower x x0 b ltac:(lra) Hx1 Hb1). nra.
  - pose proof (sin_lower (- x) x0 b ltac:(lra) ltac:(lra) Hb1) as H.
    rewrite sin_neg in H. nra.
Qed.

Lemma atan_nonneg (x : R) : 0 <= x -> 0 <= atan x.
Proof. intros H. rewrite <- atan_0. now apply atan_le. Qed.

Lemma atan2_sqrt_upper (a U : R) :
  0 < U < PI / 2 -> 0 <= a <= sin U * sin U ->
  0 <= Math.atan2 (Math.sqrt a) (Math.sqrt (1 - a)) <= U.
Proof.
  intros [HU0 HU1] [Ha0 Ha1]. unfold Math.sqrt.
  assert (HsU : 0 < sin U) by (apply sin_gt_0; lra).
  assert (HcU : 0 < cos U) by (apply cos_gt_0; lra).
  pose proof (sin2_cos2 U) as HU2. unfold Rsqr in HU2.
  assert (Hsa : sqrt a <= sin U).
  { rewrite <- (sqrt_square (sin U)) by lra. now apply sqrt_le_1_alt. }
  assert (Hsb : cos U <= sqrt (1 - a)).
  { rewrite <- (sqrt_square (cos U)) by lra. apply sqrt_le_1_alt. lra. }
  pose proof (sqrt_pos a) as Hp.
  rewrite atan2_pos by lra. split.
  - apply atan_nonneg. apply Rmult_le_pos; [exact Hp|].
    left. apply Rinv_0_lt_compat. lra.
  - apply Rle_trans with (atan (tan U)); [|rewrite atan_tan; lra].
    apply atan_le. unfold tan. apply Rdiv_le_compat; lra.
Qed.

Lemma registry_inRegion : Forall inRegion popularLocations.
Proof. unfold inRegion. repeat constructor; simpl; lra. Qed.

Lemma haversine_a_region (s d : Location) :
  inRegion s -> inRegion d -> 0 <= haversine_a s d <= 0.0065.
Proof.
  intros [[Hs1 Hs2] [Hs3 Hs4]] [[Hd1 Hd2] [Hd3 Hd4]].
  pose proof PI_bounds as [HP1 HP2]. unfold haversine_a.
  pose proof (cos_degrees_nonneg (lat s) ltac:(lra)) as Hcs.
  pose proof (cos_degrees_nonneg (lat d) ltac:(lra)) as Hcd.
  pose proof (COS_bound (lat s * PI / 180)) as [_ Hcs1].
  pose proof (COS_bound (lat d * PI / 180)) as [_ Hcd1].
  set (cs := cos (lat s * PI / 180)) in *.
  set (cd := cos (lat d * PI / 180)) in *.
  set (x := (lat d - lat s) * PI / 180 / 2).
  set (y := (lng d - lng s) * PI / 180 / 2).
  assert (Hx : -0.0524 <= x <= 0.0524) by (unfold x; split; nra).
  assert (Hy : -0.0611 <= y <= 0.0611) by (unfold y; split; nra).
  pose proof (sin_sqr_le_sqr x ltac:(lra)) as HA.
  pose proof (sin_sqr_le_sqr y ltac:(lra)) as HB.
  assert (HA0 : 0 <= sin x * sin x) by nra.
  assert (HB0 : 0 <= sin y * sin y) by nra.
  assert (Hxx : x * x <= 0.0524 * 0.0524) by nra.
  assert (Hyy : y * y <= 0.0611 * 0.0611) by nra.
  assert (Hcc : 0 <= cs * cd <= 1) by nra.
  replace (cs * cd * sin y * sin y) with (cs * cd * (sin y * sin y)) by ring.
  assert (Ht : 0 <= cs * cd * (sin y * sin y) <= sin y * sin y) by nra.
  split; lra.
Qed.

Lemma sin_quarter_turn_bound : 0.0862 <= sin (1100 / 12742).
Proof. apply (sin_lower _ (1100 / 12742)); lra. Qed.

(** X8. Every place of the registry lies in the box of latitudes 13 to
    19 and longitudes 77 to 84; for two places of that box the sum under
    the roots of the Haversine formula lies between 0 and 0.01, far from
    1, so that both roots are taken of positive numbers, and the distance
    lies between 0 and 1100 km. *)
Theorem distance_range (s d : Location) :
  inRegion s -> inRegion d ->
  Forall inRegion popularLocations /\
  0 <= haversine_a s d <= 0.01 /\
  0 <= distance s d <= 1100.
Proof.
  intros Hs Hd. pose proof (haversine_a_region s d Hs Hd) as [Ha0 Ha1].
  split; [exact registry_inRegion|]. split; [lra|].
  pose proof PI_bounds as [HP1 HP2].
  pose proof sin_quarter_turn_bound as HU.
  assert (HUU : 0.0862 * 0.0862 <= sin (1100 / 12742) * sin (1100 / 12742))
    by (apply Rmult_le_compat; lra).
  pose proof (atan2_sqrt_upper (haversine_a s d) (1100 / 12742)
                ltac:(lra) ltac:(lra)) as [H0 H1].
  unfold distance. lra.
Qed.

(** X8 for Visakhapatnam and Vijayawada. *)
Lemma distance_range_witness :
  0 <= distance visakhapatnam vijayawada <= 1100.
Proof.
  apply (distance_range visakhapatnam vijayawada);
    unfold inRegion; simpl; lra.
Defined.

Lemma cos_region (x : R) : 13 <= x <= 19 -> 0.9455 <= cos (x * PI / 180).
Proof.
  intros [H0 H1]. pose proof PI_bounds as [HP1 HP2].
  apply (cos_lower _ (19 * 3.1415927 / 180)); [split; nra | lra | lra].
Qed.

Lemma haversine_a_apart (s d : Location) :
  inRegion s -> inRegion d ->
  0.001 <= Rabs (lat d - lat s) \/ 0.001 <= Rabs (lng d - lng s) ->
  0.000000000062 <= haversine_a s d.
Proof.
  intros [[Hs1 Hs2] [Hs3 Hs4]] [[Hd1 Hd2] [Hd3 Hd4]] Hsep.
  pose proof PI_bounds as [HP1 HP2]. unfold haversine_a.
  pose proof (cos_region (lat s) ltac:(lra)) as Hcs.
  pose proof (cos_region (lat d) ltac:(lra)) as Hcd.
  pose proof (COS_bound (lat s * PI / 180)) as [_ Hcs1].
  pose proof (COS_bound (lat d * PI / 180)) as [_ Hcd1].
  set (cs := cos (lat s * PI / 180)) in *.
  set (cd := cos (lat d * PI / 180)) in *.
  set (x := (lat d - lat s) * PI / 180 / 2).
  set (y := (lng d - lng s) * PI / 180 / 2).
  assert (HA0 : 0 <= sin x * sin x) by nra.
  assert (HB0 : 0 <= sin y * sin y) by nra.
  assert (Hcc : 0.9455 * 0.9455 <= cs * cd) by nra.
  replace (cs * cd * sin y * sin y) with (cs * cd * (sin y * sin y)) by ring.
  assert (Ht0 : 0 <= cs * cd * (sin y * sin y)) by nra.
  destruct Hsep as [Hsep|Hsep].
  - assert (HA : 0.0000087 * 0.0000087 <= sin x * sin x).
    { apply (sin_sqr_lower x (0.001 * 3.1415926 / 360)); [lra| |split; lra].
      unfold Rabs in Hsep. destruct (Rcase_abs (lat d - lat s)).
      - right. unfold x. split; nra.
      - left. unfold x. split; nra. }
    lra.
  - assert (HB : 0.0000087 * 0.0000087 <= sin y * sin y).
    { apply (sin_sqr_lower y (0.001 * 3.1415926 / 360)); [lra| |split; lra].
      unfold Rabs in Hsep. destruct (Rcase_abs (lng d - lng s)).
      - right. unfold y. split; nra.
      - left. unfold y. split; nra. }
    assert (Ht : 0.9455 * 0.9455 * (0.0000087 * 0.0000087)
                 <= cs * cd * (sin y * sin y))
      by (apply Rmult_le_compat; lra).
    lra.
Qed.

Lemma haversine_a_same_coordinates (s d : Location) :
  lat s = lat d -> lng s = lng d -> haversine_a s d = 0.
Proof.
  intros Hlat Hlng. unfold haversine_a.
  replace ((lat d - lat s) * PI / 180 / 2) with 0 by (rewrite Hlat; lra).
  replace ((lng d - lng s) * PI / 180 / 2) with 0 by (rewrite Hlng; lra).
  rewrite sin_0. ring.
Qed.

(** X9. In the box of the registry the distance tells places apart:
    two places with the same coordinates are 0 km apart, and two places
    that differ by a thousandth of a degree or more, in latitude or in
    longitude, are at least 0.1 km apart. *)
Theorem distance_separates (s d : Location) :
  inRegion s -> inRegion d ->
  (lat s = lat d -> lng s = lng d -> distance s d = 0) /\
  (0.001 <= Rabs (lat d - lat s) \/ 0.001 <= Rabs (lng d - lng s) ->
   0.1 <= distance s d).
Proof.
  intros Hs Hd. split.
  - intros Hlat Hlng. unfold distance.
    rewrite (haversine_a_same_coordinates s d Hlat Hlng). unfold Math.sqrt.
    rewrite Rminus_0_r, sqrt_0, sqrt_1, atan2_pos by lra.
    replace (0 / 1) with 0 by lra. rewrite atan_0. ring.
  - intros Hsep.
    pose proof (haversine_a_region s d Hs Hd) as [_ Ha1].
    pose proof (haversine_a_apart s d Hs Hd Hsep) as Ha0.
    pose proof PI_bounds as [HP1 HP2].
    pose proof sin_quarter_turn_bound as HU.
    assert (HUU : 0.0862 * 0.0862 <= sin (1100 / 12742) * sin (1100 / 12742))
      by (apply Rmult_le_compat; lra).
    assert (HL0 : 0 < sin (0.1 / 12742)) by (apply sin_gt_0; lra).
    pose proof (sin_le_arg (0.1 / 12742) ltac:(lra)) as HL1.
    assert (HLL : sin (0.1 / 12742) * sin (0.1 / 12742)
                  <= 0.1 / 12742 * (0.1 / 12742))
      by (apply Rmult_le_compat; lra).
    pose proof (atan2_sqrt_bounds (haversine_a s d) (0.1 / 12742) (1100 / 12742)
                  ltac:(lra) ltac:(lra) ltac:(lra) ltac:(split; lra))
      as [H0 _].
    unfold distance. lra.
Qed.

(** X9 for Visakhapatnam and Vijayawada. *)
Lemma distance_separates_witness :
  0.1 <= distance visakhapatnam vijayawada.
Proof.
  apply (distance_separates visakhapatnam vijayawada).
  - unfold inRegion; simpl; lra.
  - unfold inRegion; simpl; lra.
  - left. simpl. unfold Rabs.
    destruct (Rcase_abs (16.5062 - 17.6868)); lra.
Defined.

(** X10. For a distance between 0 and 20016 km, more than half the
    circumference, the hours are not negative, the minutes lie between 0
    and 60, and the time on the label, 60 times the hours plus the
    minutes, is within half a minute of the distance in kilometres (one
    kilometre per minute), up to the tolerance left for rounding. *)
Theorem duration_total_minutes (d : R) :
  0 <= d <= 20016 ->
  (0 <= hours d)%Z /\
  (0 <= minutes d <= 60)%Z /\
  Rabs (IZR (60 * hours d + minutes d) - d) <= / 2 + tolerance.
Proof.
  intros [Hd0 Hd1].
  pose proof (Int_part_bounds (d / 60)) as [Hh0 Hh1].
  pose proof (Int_part_bounds (d + / 2)) as [Hr0 Hr1].
  assert (Hm : minutes d = (Math.round d - 60 * hours d)%Z).
  { unfold minutes, Math.round at 1, durationHours. apply Int_part_eq.
    unfold Math.round. rewrite minus_IZR, mult_IZR. lra. }
  split; [|split].
  - unfold hours, durationHours, Math.floor.
    assert (-1 < Int_part (d / 60))%Z; [|lia].
    apply lt_IZR. lra.
  - rewrite Hm. unfold Math.round, hours, durationHours, Math.floor. split.
    + assert (60 * Int_part (d / 60) - 1 < Int_part (d + / 2))%Z; [|lia].
      apply lt_IZR. rewrite minus_IZR, mult_IZR. lra.
    + assert (Int_part (d + / 2) < 60 * Int_part (d / 60) + 61)%Z; [|lia].
      apply lt_IZR. rewrite plus_IZR, mult_IZR. lra.
  - replace (60 * hours d + minutes d)%Z with (Math.round d) by lia.
    unfold Math.round, tolerance. apply Rabs_le. lra.
Qed.

(** X10 at 60.5 km. *)
Lemma duration_total_minutes_witness :
  (0 <= minutes 60.5 <= 60)%Z /\
  Rabs (IZR (60 * hours 60.5 + minutes 60.5) - 60.5) <= / 2 + tolerance.
Proof.
  destruct (duration_total_minutes 60.5 ltac:(lra)) as [_ [H1 H2]].
  split; assumption.
Defined.

End DistanceRange.

(* ================================================================== *)
(** * Sixty minutes on the label *)

Section SixtyMinutes.

Import PrimFloat.





(** On the distances of the specification's examples the label on doubles
    is the label of the real reading. *)
Lemma durationLabel_doubles_examples :
  Binary64.durationLabel 30%float = Some "30 min"%string /\
  Binary64.durationLabel 150%float = Some "2h 30m"%string /\
  Binary64.durationLabel 0%float = Some "0 min"%string.
Proof. vm_compute. repeat split. Qed.




End SixtyMinutes.

(* ================================================================== *)
(** * Sessions *)

Section Sessions.

Import Session.

Lemma startSearchEvent_frame (e : LocationSearch.Event) (a : App.State) :
  App.destination (App.startSearchEvent e a) = App.destination a /\
  App.route (App.startSearchEvent e a) = App.route a /\
  App.routeInfo (App.startSearchEvent e a) = App.routeInfo a /\
  App.isCalculating (App.startSearchEvent e a) = App.isCalculating a /\
  App.selectedLocation (App.startSearchEvent e a) = App.selectedLocation a /\
  App.isCollapsed (App.startSearchEvent e a) = App.isCollapsed a /\
  App.destinationSearch (App.startSearchEvent e a) = App.destinationSearch a.
Proof.
  unfold App.startSearchEvent.
  destruct (LocationSearch.handle (App.startSearch a) e) as [ls [v|]];
    repeat split.
Qed.

Lemma destinationSearchEvent_frame (e : LocationSearch.Event) (a : App.State) :
  App.source (App.destinationSearchEvent e a) = App.source a /\
  App.route (App.destinationSearchEvent e a) = App.route a /\
  App.routeInfo (App.destinationSearchEvent e a) = App.routeInfo a /\
  App.isCalculating (App.destinationSearchEvent e a) = App.isCalculating a /\
  App.selectedLocation (App.destinationSearchEvent e a) = App.selectedLocation a /\
  App.isCollapsed (App.destinationSearchEvent e a) = App.isCollapsed a /\
  App.startSearch (App.destinationSearchEvent e a) = App.startSearch a.
Proof.
  unfold App.destinationSearchEvent.
  destruct (LocationSearch.handle (App.destinationSearch a) e) as [ls [v|]];
    repeat split.
Qed.

(** X11. Choosing, editing or clearing a place in either search box
    leaves the route, its summary and the calculating flag as they were:
    a route and a summary computed for an earlier selection stay on
    display. *)
Theorem searchEvent_keeps_route (e : LocationSearch.Event) (a : App.State) :
  App.route (App.startSearchEvent e a) = App.route a /\
  App.routeInfo (App.startSearchEvent e a) = App.routeInfo a /\
  App.isCalculating (App.startSearchEvent e a) = App.isCalculating a /\
  App.destination (App.startSearchEvent e a) = App.destination a /\
  App.route (App.destinationSearchEvent e a) = App.route a /\
  App.routeInfo (App.destinationSearchEvent e a) = App.routeInfo a /\
  App.isCalculating (App.destinationSearchEvent e a) = App.isCalculating a /\
  App.source (App.destinationSearchEvent e a) = App.source a.
Proof.
  destruct (startSearchEvent_frame e a) as [H1 [H2 [H3 [H4 _]]]].
  destruct (destinationSearchEvent_frame e a) as [G1 [G2 [G3 [G4 _]]]].
  repeat split; assumption.
Qed.

(** Events other than the click on "Calculate Route" and the timer keep
    the calculating flag, the route and the summary, the swap apart for
    the summary. *)
Lemma step_isCalculating (st : State) (e : Event) :
  e <> CalculateClick -> e <> TimerFires ->
  App.isCalculating (app (step st e)) = App.isCalculating (app st) /\
  pending (step st e) = pending st /\
  App.route (app (step st e)) = App.route (app st).
Proof.
  intros H1 H2. destruct e as [| | |e'|e'|x y|]; try congruence; simpl.
  - repeat split.
  - destruct (startSearchEvent_frame e' (app st)) as [_ [Hr [_ [Hc _]]]].
    now rewrite Hc, Hr.
  - destruct (destinationSearchEvent_frame e' (app st)) as [_ [Hr [_ [Hc _]]]].
    now rewrite Hc, Hr.
  - repeat split.
  - repeat split.
Qed.

Lemma calculateDisabled_false (a : App.State) :
  App.calculateDisabled a = false ->
  exists s d, App.source a = Some s /\ App.destination a = Some d /\
              App.isCalculating a = false.
Proof.
  unfold App.calculateDisabled.
  destruct (App.source a) as [s|], (App.destination a) as [d|],
    (App.isCalculating a); simpl; try discriminate.
  intros _. now exists s, d.
Qed.

Lemma reachable_single_flight (st : State) :
  reachable st ->
  (pending st = [] /\ App.isCalculating (app st) = false) \/
  (exists p, pending st = [p] /\ App.isCalculating (app st) = true).
Proof.
  induction 1 as [|st e Hr IH He].
  - left. split; reflexivity.
  - destruct e as [| | |e'|e'|x y|].
    + simpl in He. apply calculateDisabled_false in He.
      destruct He as [s [d [Hs [Hd Hc]]]].
      destruct IH as [[Hp _]|[p [_ Hc']]]; [|congruence].
      right. exists (s, d). simpl. unfold App.calculateRoute_begin.
      rewrite Hs, Hd, Hp. split; reflexivity.
    + simpl in He. destruct IH as [[Hp _]|[[s d] [Hp _]]]; [contradiction|].
      left. simpl. rewrite Hp. split; reflexivity.
    + destruct (step_isCalculating st SwapClick) as [Hc [Hp _]]; try discriminate.
      rewrite Hc, Hp. exact IH.
    + destruct (step_isCalculating st (StartSearch e')) as [Hc [Hp _]];
        try discriminate.
      rewrite Hc, Hp. exact IH.
    + destruct (step_isCalculating st (DestinationSearch e')) as [Hc [Hp _]];
        try discriminate.
      rewrite Hc, Hp. exact IH.
    + destruct (step_isCalculating st (MapClick x y)) as [Hc [Hp _]];
        try discriminate.
      rewrite Hc, Hp. exact IH.
    + destruct (step_isCalculating st ToggleSidebar) as [Hc [Hp _]];
        try discriminate.
      rewrite Hc, Hp. exact IH.
Qed.

Lemma reachable_demo : reachable (run init demo).
Proof.
  unfold run, demo. cbn [fold_left].
  apply reachable_step; [|discriminate].
  apply reachable_step; [|reflexivity].
  apply reachable_step; [|split; [reflexivity | simpl; tauto]].
  apply reachable_step; [|exact I].
  apply reachable_step; [|split; [reflexivity | simpl; tauto]].
  apply reachable_step; [|exact I].
  apply reachable_init.
Qed.

(** X12. At most one calculation is ever in flight: in every reachable
    session either nothing is suspended and the calculating flag is off,
    or exactly one call is suspended, the flag is on and the "Calculate
    Route" button is disabled. *)
Theorem session_single_flight (st : State) :
  reachable st ->
  (List.length (pending st) <= 1)%nat /\
  (App.isCalculating (app st) = true <-> pending st <> []) /\
  (pending st <> [] -> App.calculateDisabled (app st) = true).
Proof.
  intros Hr.
  destruct (reachable_single_flight st Hr) as [[Hp Hc]|[p [Hp Hc]]];
    rewrite Hp, Hc; simpl.
  - split; [lia|]. split; [split; [discriminate | congruence] | congruence].
  - split; [lia|]. split; [split; [discriminate | reflexivity]|].
    intros _. unfold App.calculateDisabled. rewrite Hc.
    now rewrite orb_true_r.
Qed.

(** X12 after the demo session and in the middle of it. *)
Lemma session_single_flight_witness :
  (List.length (pending (run init demo)) <= 1)%nat /\
  (List.length (pending (run init (firstn 5 demo))) <= 1)%nat.
Proof.
  split.
  - apply (session_single_flight (run init demo)). exact reachable_demo.
  - apply (session_single_flight (run init (firstn 5 demo))).
    unfold run, demo. cbn [firstn fold_left].
    apply reachable_step; [|reflexivity].
    apply reachable_step; [|split; [reflexivity | simpl; tauto]].
    apply reachable_step; [|exact I].
    apply reachable_step; [|split; [reflexivity | simpl; tauto]].
    apply reachable_step; [|exact I].
    apply reachable_init.
Defined.

Lemma reachable_route_shape (st : State) :
  reachable st ->
  (forall r, App.route (app st) = Some r ->
             exists s d, r = Route.routePoints s d) /\
  (forall ri, App.routeInfo (app st) = Some ri ->
              exists s d, App.route (app st) = Some (Route.routePoints s d) /\
                          ri = summary s d).
Proof.
  induction 1 as [|st e Hr [IH1 IH2] He].
  - split; intros x Hx; discriminate.
  - destruct e as [| | |e'|e'|x y|].
    + simpl. unfold App.calculateRoute_begin.
      destruct (App.source (app st)) as [s|], (App.destination (app st)) as [d|];
        simpl; split; assumption.
    + simpl. destruct (pending st) as [|[s d] rest]; [now split|]. simpl. split.
      * intros r Hx. injection Hx as <-. now exists s, d.
      * intros ri Hx. injection Hx as <-. now exists s, d.
    + simpl. split; [exact IH1 | discriminate].
    + simpl.
      destruct (startSearchEvent_frame e' (app st)) as [_ [H1 [H2 _]]].
      rewrite H1, H2. now split.
    + simpl.
      destruct (destinationSearchEvent_frame e' (app st)) as [_ [H1 [H2 _]]].
      rewrite H1, H2. now split.
    + simpl. now split.
    + simpl. now split.
Qed.

(** X13. In every reachable session a route on the page is the
    21-point path of some pair of places, and a summary on display is
    the summary of the very pair whose path is the route: the numbers
    shown always belong to the line drawn. *)
Theorem session_route_summary (st : State) :
  reachable st ->
  (forall r, App.route (app st) = Some r ->
             List.length r = 21%nat /\
             exists s d, r = Route.routePoints s d) /\
  (forall ri, App.routeInfo (app st) = Some ri ->
              exists s d, App.route (app st) = Some (Route.routePoints s d) /\
                          ri = summary s d).
Proof.
  intros Hr. destruct (reachable_route_shape st Hr) as [H1 H2].
  split; [|exact H2].
  intros r Hx. destruct (H1 r Hx) as [s [d ->]].
  split; [apply routePoints_length | now exists s, d].
Qed.

(** X13 after the demo session. *)
Lemma session_route_summary_witness :
  exists s d,
    App.route (app (run init demo)) = Some (Route.routePoints s d) /\
    App.routeInfo (app (run init demo)) = Some (summary s d).
Proof.
  destruct (session_route_summary (run init demo) reachable_demo) as [_ H].
  destruct (H (summary visakhapatnam vijayawada) eq_refl) as [s [d [H1 H2]]].
  exists s, d. split; [exact H1|]. now rewrite <- H2.
Defined.

Lemma route_resume (s d : Location) (a : App.State) :
  App.route (App.calculateRoute_resume s d a) = Some (Route.routePoints s d).
Proof. reflexivity. Qed.

(** X14. No event takes the line off the map: once a route is drawn it
    stays drawn, whatever is clicked, typed, cleared or swapped
    afterwards, until a later calculation replaces it. *)
Theorem step_keeps_route_drawn (st : State) (e : Event) :
  App.routeLayer (App.route (app st)) <> None ->
  App.routeLayer (App.route (app (step st e))) <> None.
Proof.
  intros H. destruct e as [| | |e'|e'|x y|].
  - simpl. unfold App.calculateRoute_begin.
    destruct (App.source (app st)) as [s|], (App.destination (app st)) as [d|];
      exact H.
  - unfold step. destruct (pending st) as [|[s d] rest]; [exact H|].
    cbn [app]. rewrite route_resume. unfold App.routeLayer.
    rewrite routePoints_length. discriminate.
  - exact H.
  - destruct (step_isCalculating st (StartSearch e')) as [_ [_ Hr]];
      try discriminate.
    now rewrite Hr.
  - destruct (step_isCalculating st (DestinationSearch e')) as [_ [_ Hr]];
      try discriminate.
    now rewrite Hr.
  - exact H.
  - exact H.
Qed.

(** X14: clearing the start box after the demo session leaves its route
    on the map. *)
Lemma step_keeps_route_drawn_witness :
  App.routeLayer
    (App.route (app (step (run init demo) (StartSearch LocationSearch.Clear))))
  <> None.
Proof.
  apply step_keeps_route_drawn.
  change (App.route (app (run init demo)))
    with (Some (Route.routePoints visakhapatnam vijayawada)).
  unfold App.routeLayer. rewrite routePoints_length. discriminate.
Defined.

Lemma summary_sym (s d : Location) : summary s d = summary d s.
Proof.
  unfold summary, Route.distance. now rewrite (haversine_a_sym s d).
Qed.

(** X16. A swap during the delay of a calculation: with both places
    chosen and nothing in flight, click "Calculate Route", swap, and let
    the timer fire; the session ends with the places exchanged, the path
    of the pair captured at the click on the map, so that it starts at
    what is now the destination, the summary of the new selection on
    display and nothing in flight. *)
Theorem swap_during_delay (a : App.State) (s d : Location) :
  App.source a = Some s -> App.destination a = Some d ->
  let st := run (mkState a []) [CalculateClick; SwapClick; TimerFires] in
  App.source (app st) = Some d /\
  App.destination (app st) = Some s /\
  App.route (app st) = Some (Route.routePoints s d) /\
  nth_error (Route.routePoints s d) 0 = Some (lat s, lng s) /\
  App.routeInfo (app st) = Some (summary d s) /\
  App.isCalculating (app st) = false /\
  pending st = [].
Proof.
  intros Hs Hd st.
  assert (Hst : st = mkState (App.calculateRoute_resume s d
                                (App.swapLocations (App.setIsCalculating true a)))
                             []).
  { unfold st, run. cbn [fold_left]. unfold step at 3. cbn [app pending].
    unfold App.calculateRoute_begin. rewrite Hs, Hd. reflexivity. }
  rewrite Hst. cbn [app pending].
  split; [exact Hd|]. split; [exact Hs|].
  split; [apply route_resume|].
  split; [rewrite routePoints_nth_error by lia; now rewrite routePoint_first|].
  split; [|split; reflexivity].
  rewrite <- summary_sym. reflexivity.
Qed.

(** X16 from the state with Visakhapatnam and Vijayawada chosen. *)
Lemma swap_during_delay_witness :
  App.source (app (run (ready visakhapatnam vijayawada)
                       [CalculateClick; SwapClick; TimerFires]))
  = Some vijayawada /\
  App.routeInfo (app (run (ready visakhapatnam vijayawada)
                          [CalculateClick; SwapClick; TimerFires]))
  = Some (summary vijayawada visakhapatnam).
Proof.
  destruct (swap_during_delay (app (ready visakhapatnam vijayawada))
              visakhapatnam vijayawada eq_refl eq_refl)
    as [H1 [_ [_ [_ [H4 _]]]]].
  split; [exact H1 | exact H4].
Defined.

End Sessions.

(* ================================================================== *)
(** * Markers *)

Section Markers.

Import MapView.

(** X17. The map never carries more than two of the movable markers,
    and the marker of a clicked point is among them exactly when a point
    has been clicked and neither a source nor a destination is set: the
    click marker disappears as soon as a place is chosen. *)
Theorem markers_selected (source destination : option Location)
    (selectedLocation : option (R * R)) :
  (List.length (markers source destination selectedLocation) <= 2)%nat /\
  ((exists m, In m (markers source destination selectedLocation) /\
              icon m = selectedIcon) <->
   (source = None /\ destination = None /\ selectedLocation <> None)).
Proof.
  destruct source as [s|], destination as [d|], selectedLocation as [p|];
    simpl; (split; [lia|]); split;
    try (intros [m [Hin Hi]]; simpl in Hin;
         repeat (destruct Hin as [<-|Hin]; [discriminate|]); contradiction);
    try (intros [H1 [H2 H3]]; congruence).
  - intros _. repeat split; discriminate.
  - intros _. exists (mkMarker selectedIcon p). split; [now left | reflexivity].
Qed.

End Markers.

(* ================================================================== *)
(** * Calculating twice *)

Section Recalculate.

Import App.

(** X18. Calculating again with the selection unchanged changes nothing:
    a second call of [calculateRoute] right after a first one returns the
    state the first one left. *)
Theorem calculateRoute_idempotent (st : State) :
  calculateRoute (calculateRoute st) = calculateRoute st.
Proof.
  unfold calculateRoute, calculateRoute_begin.
  destruct (source st) as [s|] eqn:Hs, (destination st) as [d|] eqn:Hd;
    cbn [source destination calculateRoute_resume setIsCalculating
         handleRouteCalculate setRoute setRouteInfo];
    rewrite ?Hs, ?Hd; reflexivity.
Qed.

End Recalculate.
